(** * Chunking engine of repo-indexer (chunker/chunker.py)

    A shallow embedding of [TokenEstimator], [TreeSitterChunker] and
    [RepoChunker.process_file] and the properties of the specification
    that concern them.

    Conventions of the embedding.
    - A Python [str] is a [string]; every [ascii] stands for one code point
      (U+0000 .. U+00FF), so that [len] is [String.length].
    - Python [int]s are [Z]; [//] by a positive constant is [Z.div].
    - A chunk dictionary is the record [Chunk]; the key [parser_fallback],
      which structural nodes lack, is an [option bool].
    - Library code the repository calls (tiktoken, tree-sitter, hashlib,
      pathlib, [str.title]) is a parameter of the definitions that use it;
      the modules [Sha1] and [Posix] give the library's functions, to run
      the model on an input. *)

From Stdlib Require Import ZArith Ascii String DecimalString Lia.
From Stdlib Require DecimalPos DecimalZ.
From stdpp Require Import base option list strings gmap.

Local Open Scope Z_scope.

(** ** Python string and list primitives *)

Module Py.

Definition newline : ascii := "010"%char.
Definition NL : string := String newline EmptyString.

Definition is_newline (c : ascii) : bool := Ascii.eqb c newline.

(** [s.split('\n')]: never the empty list, [''.split('\n') = ['']]. *)
Fixpoint split_nl (s : string) : list string :=
  match s with
  | EmptyString => [EmptyString]
  | String c s' =>
      if is_newline c then EmptyString :: split_nl s'
      else match split_nl s' with
           | [] => [String c EmptyString]
           | l :: ls => String c l :: ls
           end
  end.

(** ['\n'.join(ls)] *)
Definition join_nl (ls : list string) : string := String.concat NL ls.

(** [len(l)] as a Python integer. *)
Definition len {A} (l : list A) : Z := Z.of_nat (length l).
Definition str_len (s : string) : Z := Z.of_nat (String.length s).

(** Normalisation of one bound of a slice [l[a:b]]: a negative bound
    counts from the end, and every bound is clipped to [0 .. len]. *)
Definition slice_bound (n i : Z) : Z :=
  if i <? 0 then Z.max 0 (i + n) else Z.min i n.

(** [l[a:b]] on a list. *)
Definition slice {A} (l : list A) (a b : Z) : list A :=
  let a' := slice_bound (len l) a in
  let b' := slice_bound (len l) b in
  take (Z.to_nat (b' - a')) (drop (Z.to_nat a') l).

(** [s[:n]] on a string, for [0 <= n]. *)
Definition str_prefix (n : nat) (s : string) : string := String.substring 0 n s.

(** [str(n)] for an integer. *)
Definition str_of_Z (z : Z) : string := NilZero.string_of_int (Z.to_int z).

(** [c.isspace()] for the code points below 256: the ASCII controls
    TAB..CR, the separators FS..US, the space, NEL and NBSP. *)
Definition isspace (c : ascii) : bool :=
  let n := nat_of_ascii c in
  ((9 <=? n) && (n <=? 13) || (28 <=? n) && (n <=? 32)
   || (n =? 133) || (n =? 160))%nat.

Fixpoint lstrip (s : string) : string :=
  match s with
  | EmptyString => EmptyString
  | String c s' => if isspace c then lstrip s' else s
  end.

Fixpoint rstrip (s : string) : string :=
  match s with
  | EmptyString => EmptyString
  | String c s' =>
      match rstrip s' with
      | EmptyString => if isspace c then EmptyString else String c EmptyString
      | r => String c r
      end
  end.

(** [s.strip()] *)
Definition strip (s : string) : string := rstrip (lstrip s).

(** [s.startswith(p)] *)
Definition startswith (p s : string) : bool := String.prefix p s.

(** [s[n:]] on a string, for [0 <= n]. *)
Fixpoint str_drop (n : nat) (s : string) : string :=
  match n, s with
  | O, _ => s
  | S n', EmptyString => EmptyString
  | S n', String _ s' => str_drop n' s'
  end.

(** [str.title] on ASCII text: a letter that follows a letter is put in
    lower case, any other letter in upper case. *)
Definition is_upper (c : ascii) : bool :=
  let n := nat_of_ascii c in ((65 <=? n) && (n <=? 90))%nat.
Definition is_lower (c : ascii) : bool :=
  let n := nat_of_ascii c in ((97 <=? n) && (n <=? 122))%nat.
Definition to_upper (c : ascii) : ascii :=
  if is_lower c then ascii_of_nat (nat_of_ascii c - 32) else c.
Definition to_lower (c : ascii) : ascii :=
  if is_upper c then ascii_of_nat (nat_of_ascii c + 32) else c.

Fixpoint title_from (previous_is_cased : bool) (s : string) : string :=
  match s with
  | EmptyString => EmptyString
  | String c s' =>
      if is_lower c || is_upper c then
        String (if previous_is_cased then to_lower c else to_upper c)
               (title_from true s')
      else String c (title_from false s')
  end.

Definition ascii_title (s : string) : string := title_from false s.

End Py.

(** ** Data model *)

(** The dictionaries built by [_extract_nodes_with_query],
    [_fallback_chunking] and [_merge_small_chunks]. *)
Record Chunk := mkChunk {
  type_ : string;
  name : string;
  start_line : Z;
  end_line : Z;
  text : string;
  capture_name : string;
  parser_fallback : option bool
}.

(** [TokenEstimator]: [encoder] is [None] when tiktoken is missing or its
    encoding could not be loaded; otherwise it is [encoder.encode]. *)
Record TokenEstimator := mkTokenEstimator {
  encoder : option (string -> list N)
}.

Definition estimate_tokens (self : TokenEstimator) (text : string) : Z :=
  match encoder self with
  | Some encode => Py.len (encode text)
  | None => Py.str_len text / 4
  end.

(** [TreeSitterChunker]. [structural_nodes language content] stands for
    [_parse_with_tree_sitter] followed by [_extract_nodes_with_query]
    (and [[]] when the tree is [None]): the parsers and queries belong to
    tree-sitter. *)
Record TreeSitterChunker := mkTreeSitterChunker {
  max_tokens : Z;
  min_tokens : Z;
  overlap_tokens : Z;
  token_estimator : TokenEstimator;
  structural_nodes : string -> string -> list Chunk
}.

(** Truth value of a list: [if l:]. *)
Definition truthy {A} (l : list A) : bool :=
  match l with [] => false | _ => true end.

(** [x in [a, b, ...]] on strings. *)
Definition str_in (x : string) (l : list string) : bool :=
  existsb (String.eqb x) l.

Section Chunker.

Variable self : TreeSitterChunker.

(** [hashlib.sha1(content.encode()).hexdigest()] *)
Variable sha1_hexdigest : string -> string.
(** [str.title] *)
Variable str_title : string -> string.
(** [Path(filepath).suffix.lower()] *)
Variable suffix_lower : string -> string.

Definition tokens_of (t : string) : Z :=
  estimate_tokens (token_estimator self) t.

(** *** [_get_language] *)

Definition _get_language (filepath : string) : string :=
  let ext := suffix_lower filepath in
  if String.eqb ext ".py" then "python"
  else if String.eqb ext ".js" then "javascript"
  else if String.eqb ext ".ts" then "typescript"
  else if String.eqb ext ".jsx" then "javascript"
  else if String.eqb ext ".tsx" then "typescript"
  else if String.eqb ext ".java" then "java"
  else "unknown".

(** *** [_fallback_chunking] *)

Definition block (n : Z) (s e : Z) (t : string) : Chunk :=
  {| type_ := "block";
     name := "block_" +:+ Py.str_of_Z n;
     start_line := s;
     end_line := e;
     text := t;
     capture_name := "fallback";
     parser_fallback := Some true |}.

(** The loop variables [chunks], [current_chunk], [current_tokens]. *)
Record FallbackState := mkFallbackState {
  fb_chunks : list Chunk;
  fb_current_chunk : list string;
  fb_current_tokens : Z
}.

(** One iteration of [for i, line in enumerate(lines, 1)]. *)
Definition fallback_step (st : FallbackState) (i : Z) (line : string)
  : FallbackState :=
  let line_tokens := tokens_of line in
  if (max_tokens self <? fb_current_tokens st + line_tokens)
     && truthy (fb_current_chunk st)
  then
    let chunk_text := Py.join_nl (fb_current_chunk st) in
    {| fb_chunks :=
         fb_chunks st ++
           [block (Py.len (fb_chunks st) + 1)
                  (i - Py.len (fb_current_chunk st)) (i - 1) chunk_text];
       fb_current_chunk := [line];
       fb_current_tokens := line_tokens |}
  else
    {| fb_chunks := fb_chunks st;
       fb_current_chunk := fb_current_chunk st ++ [line];
       fb_current_tokens := fb_current_tokens st + line_tokens |}.

Fixpoint fallback_loop (lines : list string) (i : Z) (st : FallbackState)
  : FallbackState :=
  match lines with
  | [] => st
  | line :: rest => fallback_loop rest (i + 1) (fallback_step st i line)
  end.

Definition fallback_init : FallbackState :=
  {| fb_chunks := []; fb_current_chunk := []; fb_current_tokens := 0 |}.

Definition _fallback_chunking (content filepath : string) : list Chunk :=
  let lines := Py.split_nl content in
  let st := fallback_loop lines 1 fallback_init in
  if truthy (fb_current_chunk st) then
    let chunk_text := Py.join_nl (fb_current_chunk st) in
    fb_chunks st ++
      [block (Py.len (fb_chunks st) + 1)
             (Py.len lines - Py.len (fb_current_chunk st) + 1)
             (Py.len lines) chunk_text]
  else fb_chunks st.

(** *** [_merge_small_chunks] *)

(** [d.get('parser_fallback', False)] *)
Definition get_parser_fallback (c : Chunk) : bool :=
  default false (parser_fallback c).

Definition merged_chunk (current next_chunk : Chunk) : Chunk :=
  {| type_ := "merged";
     name := name current +:+ "_merged_" +:+ name next_chunk;
     start_line := start_line current;
     end_line := end_line next_chunk;
     text := text current +:+ Py.NL +:+ text next_chunk;
     capture_name := "merged";
     parser_fallback :=
       Some (get_parser_fallback current || get_parser_fallback next_chunk) |}.

(** The loop [while i < len(chunks)], with the list [merged] built so far.
    Every iteration advances [i], so [len(chunks) - i] iterations are
    enough; [fuel] bounds their number. *)
Fixpoint merge_loop (fuel : nat) (chunks : list Chunk) (i : nat)
  (merged : list Chunk) : list Chunk :=
  match fuel with
  | O => merged
  | S fuel' =>
      match chunks !! i with
      | None => merged
      | Some current =>
          let current_tokens := tokens_of (text current) in
          let pass := merge_loop fuel' chunks (i + 1) (merged ++ [current]) in
          if (current_tokens <? min_tokens self)
             && (Z.of_nat i <? Py.len chunks - 1)
          then
            match chunks !! (i + 1)%nat with
            | None => pass
            | Some next_chunk =>
                let next_tokens := tokens_of (text next_chunk) in
                if current_tokens + next_tokens <=? max_tokens self then
                  merge_loop fuel' chunks (i + 2)
                    (merged ++ [merged_chunk current next_chunk])
                else pass
            end
          else pass
      end
  end.

Definition _merge_small_chunks (chunks : list Chunk) : list Chunk :=
  if truthy chunks then merge_loop (length chunks) chunks 0 [] else chunks.

(** *** [_add_overlap] *)

(** The dictionaries of [chunks] are updated in place: the list is the
    store, position [i] holding the object [chunks[i]], and an iteration
    reads its neighbours from the store as it is at that moment. *)

Definition overlap_lines_count : Z := overlap_tokens self / 4.

(** [if i > 0:] branch, on the object at position [i]. *)
Definition overlap_prev (lines : list string) (chunks : list Chunk)
  (i : nat) (chunk : Chunk) : Chunk :=
  if (0 <? i)%nat then
    match chunks !! (i - 1)%nat with
    | None => chunk
    | Some prev_chunk =>
        let prev_end := end_line prev_chunk in
        let overlap_start := Z.max 0 (prev_end - overlap_lines_count) in
        let overlap_lines := Py.slice lines overlap_start prev_end in
        let overlap_text := Py.join_nl overlap_lines in
        {| type_ := type_ chunk; name := name chunk;
           start_line := overlap_start + 1;
           end_line := end_line chunk;
           text := overlap_text +:+ Py.NL +:+ text chunk;
           capture_name := capture_name chunk;
           parser_fallback := parser_fallback chunk |}
    end
  else chunk.

(** [if i < len(chunks) - 1:] branch, on the object at position [i]. *)
Definition overlap_next (lines : list string) (chunks : list Chunk)
  (i : nat) (chunk : Chunk) : Chunk :=
  if Z.of_nat i <? Py.len chunks - 1 then
    match chunks !! (i + 1)%nat with
    | None => chunk
    | Some next_chunk =>
        let next_start := start_line next_chunk - 1 in
        let overlap_end :=
          Z.min (Py.len lines) (next_start + overlap_lines_count) in
        let overlap_lines := Py.slice lines next_start overlap_end in
        let overlap_text := Py.join_nl overlap_lines in
        {| type_ := type_ chunk; name := name chunk;
           start_line := start_line chunk;
           end_line := overlap_end;
           text := text chunk +:+ Py.NL +:+ overlap_text;
           capture_name := capture_name chunk;
           parser_fallback := parser_fallback chunk |}
    end
  else chunk.

(** One iteration of [for i, chunk in enumerate(chunks)]. *)
Definition overlap_step (lines : list string) (chunks : list Chunk) (i : nat)
  : list Chunk :=
  match chunks !! i with
  | None => chunks
  | Some chunk =>
      <[i := overlap_next lines chunks i (overlap_prev lines chunks i chunk)]>
        chunks
  end.

(** [overlapped] collects the objects in order, so it is the store after
    the last iteration. *)
Definition _add_overlap (chunks : list Chunk) (content : string)
  : list Chunk :=
  if Py.len chunks <=? 1 then chunks
  else
    let lines := Py.split_nl content in
    foldl (overlap_step lines) chunks (seq 0 (length chunks)).

(** *** [chunk_file] *)

Definition chunk_file (filepath content : string) : list Chunk :=
  let language := _get_language filepath in
  let nodes := structural_nodes self language content in
  let nodes :=
    if truthy nodes then nodes else _fallback_chunking content filepath in
  let nodes := _merge_small_chunks nodes in
  _add_overlap nodes content.

(** *** [create_chunk_id], [create_code_fingerprint] *)

Definition create_chunk_id (filepath : string) (start_line end_line : Z)
  (text : string) : string :=
  let content :=
    filepath +:+ ":" +:+ Py.str_of_Z start_line +:+ ":" +:+
    Py.str_of_Z end_line +:+ ":" +:+ text in
  "sha1:" +:+ sha1_hexdigest content.

Definition create_code_fingerprint (filepath : string)
  (start_line end_line : Z) (text : string) : string :=
  let content :=
    filepath +:+ ":" +:+ Py.str_of_Z start_line +:+ ":" +:+
    Py.str_of_Z end_line +:+ ":" +:+ text in
  sha1_hexdigest content.

(** *** [generate_summary], [extract_imports] *)

Definition summary_first_line (text : string) : string :=
  let lines := Py.split_nl (Py.strip text) in
  match lines with
  | l :: _ => Py.strip l
  | [] => ""
  end.

Definition generate_summary (text node_type : string) : string :=
  let first_line := summary_first_line text in
  if str_in node_type ["function"; "method"] then
    "Function: " +:+ Py.str_prefix 100 first_line +:+ "..."
  else if str_in node_type ["class"] then
    "Class: " +:+ Py.str_prefix 100 first_line +:+ "..."
  else if str_in node_type ["import"; "import_statement"] then
    "Import: " +:+ first_line
  else
    str_title node_type +:+ ": " +:+ Py.str_prefix 100 first_line +:+ "...".

Definition import_line (language line : string) : bool :=
  if String.eqb language "python" then
    Py.startswith "import " line || Py.startswith "from " line
  else if str_in language ["javascript"; "typescript"] then
    Py.startswith "import " line || Py.startswith "require(" line
  else if String.eqb language "java" then
    Py.startswith "import " line
  else false.

Definition extract_imports (text language : string) : list string :=
  filter (fun line => import_line language line = true)
         (map Py.strip (Py.split_nl text)).

End Chunker.

(** ** [RepoChunker.process_file] *)

Record Stats := mkStats {
  scanned_folders : Z;
  total_files : Z;
  parsed_files : Z;
  failed_files : Z;
  total_chunks : Z;
  chunks_by_language : gmap string Z
}.

(** One line of [chunks.jsonl], before [json.dumps]. *)
Record ChunkData := mkChunkData {
  cd_id : string;
  cd_filepath : string;
  cd_language : string;
  cd_node_type : string;
  cd_start_line : Z;
  cd_end_line : Z;
  cd_text : string;
  cd_summary : string;
  cd_tokens_estimate : Z;
  cd_imports : list string;
  cd_code_fingerprint : string;
  cd_last_modified : string;
  cd_parser_fallback : bool
}.

(** What [process_file] changes: the counters of the [RepoChunker] and the
    lines appended to [chunks.jsonl]. Log messages are left out. *)
Record World := mkWorld {
  stats : Stats;
  chunks_jsonl : list ChunkData
}.

(** A call either returns or raises, and in both cases leaves a state. *)
Inductive Outcome (A : Type) : Type :=
  | Returned (a : A)
  | Raised.
Arguments Returned {A} a.
Arguments Raised {A}.

Definition Run (A : Type) : Type := World -> Outcome A * World.

#[export] Instance Run_ret : MRet Run :=
  fun A a w => (Returned a, w).

#[export] Instance Run_bind : MBind Run :=
  fun A B f m w =>
    match m w with
    | (Returned a, w') => f a w'
    | (Raised, w') => (Raised, w')
    end.

Definition raise {A} : Run A := fun w => (Raised, w).

(** [try: body except Exception: handler] *)
Definition try_except {A} (body handler : Run A) : Run A :=
  fun w =>
    match body w with
    | (Returned a, w') => (Returned a, w')
    | (Raised, w') => handler w'
    end.

Definition update_stats (f : Stats -> Stats) : Run unit :=
  fun w => (Returned (), {| stats := f (stats w);
                            chunks_jsonl := chunks_jsonl w |}).

Definition write_line (d : ChunkData) : Run unit :=
  fun w => (Returned (), {| stats := stats w;
                            chunks_jsonl := chunks_jsonl w ++ [d] |}).

Definition incr_total_files (s : Stats) : Stats :=
  {| scanned_folders := scanned_folders s;
     total_files := total_files s + 1;
     parsed_files := parsed_files s;
     failed_files := failed_files s;
     total_chunks := total_chunks s;
     chunks_by_language := chunks_by_language s |}.

Definition incr_parsed_files (s : Stats) : Stats :=
  {| scanned_folders := scanned_folders s;
     total_files := total_files s;
     parsed_files := parsed_files s + 1;
     failed_files := failed_files s;
     total_chunks := total_chunks s;
     chunks_by_language := chunks_by_language s |}.

Definition incr_failed_files (s : Stats) : Stats :=
  {| scanned_folders := scanned_folders s;
     total_files := total_files s;
     parsed_files := parsed_files s;
     failed_files := failed_files s + 1;
     total_chunks := total_chunks s;
     chunks_by_language := chunks_by_language s |}.

Definition incr_total_chunks (s : Stats) : Stats :=
  {| scanned_folders := scanned_folders s;
     total_files := total_files s;
     parsed_files := parsed_files s;
     failed_files := failed_files s;
     total_chunks := total_chunks s + 1;
     chunks_by_language := chunks_by_language s |}.

(** [if language not in d: d[language] = 0] then [d[language] += n] *)
Definition add_language_chunks (language : string) (n : Z) (s : Stats)
  : Stats :=
  {| scanned_folders := scanned_folders s;
     total_files := total_files s;
     parsed_files := parsed_files s;
     failed_files := failed_files s;
     total_chunks := total_chunks s;
     chunks_by_language :=
       <[language := default 0 (chunks_by_language s !! language) + n]>
         (chunks_by_language s) |}.

Section Pipeline.

Variable self : TreeSitterChunker.
Variable sha1_hexdigest : string -> string.
Variable str_title : string -> string.
Variable suffix_lower : string -> string.

(** [self.chunker.chunk_file], a method looked up on the object: the test
    suite replaces it by a stub. *)
Variable chunker_chunk_file : string -> string -> list Chunk.

(** Reading [filepath] and its modification time: the content and the
    ISO time stamp, or [None] when [open], [read] or [stat] raises. *)
Variable read_file : string -> option (string * string).
(** Whether [open(output_file, 'a')] succeeds. *)
Variable output_writable : bool.

Definition chunk_data (filepath : string) (chunk : Chunk)
  (language last_modified : string) : ChunkData :=
  {| cd_id := create_chunk_id sha1_hexdigest filepath (start_line chunk)
                (end_line chunk) (text chunk);
     cd_filepath := filepath;
     cd_language := language;
     cd_node_type := type_ chunk;
     cd_start_line := start_line chunk;
     cd_end_line := end_line chunk;
     cd_text := text chunk;
     cd_summary := generate_summary str_title (text chunk) (type_ chunk);
     cd_tokens_estimate :=
       estimate_tokens (token_estimator self) (text chunk);
     cd_imports := extract_imports (text chunk) language;
     cd_code_fingerprint :=
       create_code_fingerprint sha1_hexdigest filepath (start_line chunk)
         (end_line chunk) (text chunk);
     cd_last_modified := last_modified;
     cd_parser_fallback := default false (parser_fallback chunk) |}.

Fixpoint write_chunks_loop (filepath : string) (chunks : list Chunk)
  (language last_modified : string) : Run unit :=
  match chunks with
  | [] => mret ()
  | chunk :: rest =>
      update_stats incr_total_chunks ;;
      write_line (chunk_data filepath chunk language last_modified) ;;
      write_chunks_loop filepath rest language last_modified
  end.

Definition _write_chunks (filepath : string) (chunks : list Chunk)
  (language last_modified : string) : Run unit :=
  if output_writable then
    write_chunks_loop filepath chunks language last_modified
  else raise.

(** [relative_path] is [Path(filepath).relative_to(self.root_path)], which
    the traversal makes well defined: it only visits files below the
    root. *)
Definition process_file (filepath relative_path : string) : Run unit :=
  update_stats incr_total_files ;;
  try_except
    (match read_file filepath with
     | None => raise
     | Some (content, last_modified) =>
         let chunks := chunker_chunk_file filepath content in
         if truthy chunks then
           update_stats incr_parsed_files ;;
           let language := _get_language suffix_lower filepath in
           update_stats (add_language_chunks language (Py.len chunks)) ;;
           _write_chunks relative_path chunks language last_modified
         else
           update_stats incr_failed_files
     end)
    (update_stats incr_failed_files).

(** The traversal calls [process_file] on one file after the other; a
    call that raised would end it. *)
Fixpoint process_files (files : list (string * string)) : Run unit :=
  match files with
  | [] => mret ()
  | (filepath, relative_path) :: rest =>
      process_file filepath relative_path ;;
      process_files rest
  end.

End Pipeline.

(** The pipeline as the repository runs it: [chunk_file] of its own
    chunker. *)
Definition repo_process_file (self : TreeSitterChunker)
  (sha1_hexdigest str_title suffix_lower : string -> string)
  (read_file : string -> option (string * string)) (output_writable : bool)
  : string -> string -> Run unit :=
  process_file self sha1_hexdigest str_title suffix_lower
    (chunk_file self suffix_lower) read_file output_writable.

(** ** The library functions, for running the model *)

(** The chunker is stated over any [sha1_hexdigest], [str_title] and
    [suffix_lower]. To run it on an input these are the functions of the
    Python library: SHA-1 (FIPS 180-4) over the UTF-8 encoding, and
    [pathlib]'s suffix for a POSIX path. *)

Module Sha1.

Definition mask32 (x : Z) : Z := Z.land x 4294967295.
Definition add32 (x y : Z) : Z := mask32 (x + y).
Definition rotl32 (n x : Z) : Z :=
  mask32 (Z.lor (Z.shiftl x n) (Z.shiftr x (32 - n))).
Definition not32 (x : Z) : Z := Z.lxor x 4294967295.

(** [str.encode()]: UTF-8 of code points below 256. *)
Definition utf8_char (c : ascii) : list Z :=
  let n := Z.of_nat (nat_of_ascii c) in
  if n <? 128 then [n] else [192 + n / 64; 128 + n mod 64].

Fixpoint utf8 (s : string) : list Z :=
  match s with
  | EmptyString => []
  | String c s' => utf8_char c ++ utf8 s'
  end.

(** The [n] low bytes of [x], most significant first. *)
Fixpoint be_bytes (n : nat) (x : Z) : list Z :=
  match n with
  | O => []
  | S n' => be_bytes n' (x / 256) ++ [x mod 256]
  end.

(** The message, the bit 1, zero bytes up to 56 modulo 64, and the length
    in bits on 64 bits. *)
Definition pad (msg : list Z) : list Z :=
  let l := Z.of_nat (length msg) in
  let zeros := Z.to_nat ((55 - l) mod 64) in
  msg ++ [128] ++ replicate zeros 0 ++ be_bytes 8 (8 * l).

Definition word_of_bytes (b : list Z) : Z :=
  foldl (fun acc x => acc * 256 + x) 0 b.

(** [n] words of four bytes. *)
Fixpoint words (n : nat) (bytes : list Z) : list Z :=
  match n with
  | O => []
  | S n' => word_of_bytes (take 4 bytes) :: words n' (drop 4 bytes)
  end.

(** The message schedule, last word first: [rev_w] holds [w[i-1]],
    [w[i-2]], ... *)
Fixpoint schedule (n : nat) (rev_w : list Z) : list Z :=
  match n with
  | O => rev_w
  | S n' =>
      let w k := default 0 (rev_w !! k) in
      schedule n'
        (rotl32 1 (Z.lxor (Z.lxor (w 2%nat) (w 7%nat))
                          (Z.lxor (w 13%nat) (w 15%nat))) :: rev_w)
  end.

Record State := mkState { ha : Z; hb : Z; hc : Z; hd : Z; he : Z }.

Definition round (i : nat) (st : State) (w : Z) : State :=
  let '(f, k) :=
    if (i <? 20)%nat then
      (Z.lor (Z.land (hb st) (hc st)) (Z.land (not32 (hb st)) (hd st)),
       1518500249)
    else if (i <? 40)%nat then
      (Z.lxor (Z.lxor (hb st) (hc st)) (hd st), 1859775393)
    else if (i <? 60)%nat then
      (Z.lor (Z.lor (Z.land (hb st) (hc st)) (Z.land (hb st) (hd st)))
             (Z.land (hc st) (hd st)),
       2400959708)
    else
      (Z.lxor (Z.lxor (hb st) (hc st)) (hd st), 3395469782) in
  let temp :=
    add32 (add32 (add32 (add32 (rotl32 5 (ha st)) f) (he st)) k) w in
  {| ha := temp; hb := ha st; hc := rotl32 30 (hb st); hd := hc st;
     he := hd st |}.

Fixpoint rounds (i : nat) (ws : list Z) (st : State) : State :=
  match ws with
  | [] => st
  | w :: ws' => rounds (S i) ws' (round i st w)
  end.

Definition compress (h : State) (block : list Z) : State :=
  let w := rev (schedule 64 (rev (words 16 block))) in
  let st := rounds 0 w h in
  {| ha := add32 (ha h) (ha st); hb := add32 (hb h) (hb st);
     hc := add32 (hc h) (hc st); hd := add32 (hd h) (hd st);
     he := add32 (he h) (he st) |}.

Fixpoint blocks (n : nat) (bytes : list Z) (h : State) : State :=
  match n with
  | O => h
  | S n' => blocks n' (drop 64 bytes) (compress h (take 64 bytes))
  end.

Definition initial : State :=
  {| ha := 1732584193; hb := 4023233417; hc := 2562383102;
     hd := 271733878; he := 3285377520 |}.

Definition hex_digit (d : Z) : ascii :=
  if d <? 10 then ascii_of_nat (Z.to_nat (48 + d))
  else ascii_of_nat (Z.to_nat (87 + d)).

Fixpoint hex_word (n : nat) (x : Z) : string :=
  match n with
  | O => EmptyString
  | S n' => hex_word n' (x / 16) +:+ String (hex_digit (x mod 16)) EmptyString
  end.

Definition digest (msg : list Z) : State :=
  let padded := pad msg in
  blocks (length padded / 64) padded initial.

(** [hashlib.sha1(content.encode()).hexdigest()] *)
Definition hexdigest (content : string) : string :=
  let st := digest (utf8 content) in
  hex_word 8 (ha st) +:+ hex_word 8 (hb st) +:+ hex_word 8 (hc st) +:+
  hex_word 8 (hd st) +:+ hex_word 8 (he st).

End Sha1.

Module Posix.

Fixpoint has_char (x : ascii) (s : string) : bool :=
  match s with
  | EmptyString => false
  | String c s' => Ascii.eqb c x || has_char x s'
  end.

(** [s[s.rfind(x) + 1:]]: the part of [s] after its last [x]. *)
Fixpoint after_last (x : ascii) (s : string) : string :=
  match s with
  | EmptyString => EmptyString
  | String c s' =>
      if has_char x s' then after_last x s'
      else if Ascii.eqb c x then s' else s
  end.

(** [s[s.rfind(x):]], or [None] when [x] is not in [s]. *)
Fixpoint from_last (x : ascii) (s : string) : option string :=
  match s with
  | EmptyString => None
  | String c s' =>
      match from_last x s' with
      | Some r => Some r
      | None => if Ascii.eqb c x then Some s else None
      end
  end.

(** [Path(filepath).suffix] for a path that ends in a file name: the
    name from its last dot on, unless that dot is its first or its last
    character. *)
Definition suffix (filepath : string) : string :=
  let name := after_last "/" filepath in
  match from_last "." name with
  | Some suf =>
      if String.eqb suf name || String.eqb suf "." then "" else suf
  | None => ""
  end.

Fixpoint lower (s : string) : string :=
  match s with
  | EmptyString => EmptyString
  | String c s' => String (Py.to_lower c) (lower s')
  end.

Definition suffix_lower (filepath : string) : string :=
  lower (suffix filepath).

End Posix.

(** ** Definitions used to state the properties *)

Section Auxiliary.

Variable self : TreeSitterChunker.

(** [_merge_small_chunks] as a recursion on [chunks[i:]], the part of the
    list the loop has still to read. *)
Fixpoint merge_suffix (chunks : list Chunk) : list Chunk :=
  match chunks with
  | [] => []
  | current :: rest =>
      match rest with
      | [] => [current]
      | next_chunk :: rest' =>
          if (tokens_of self (text current) <? min_tokens self)
             && (tokens_of self (text current)
                 + tokens_of self (text next_chunk) <=? max_tokens self)
          then merged_chunk current next_chunk :: merge_suffix rest'
          else current :: merge_suffix rest
      end
  end.

End Auxiliary.

(** Where an output chunk [c] of the normalizer comes from: it is the
    input chunk at some position [i], kept because it is large enough, or
    the last one, or too large to be merged with its successor; or it is
    the merge of the input chunks at [i] and [i + 1], the first of them
    under [min_tokens] and the two together within [max_tokens]. *)
Definition normalizer_output_origin (self : TreeSitterChunker)
  (chunks : list Chunk) (c : Chunk) : Prop :=
  (∃ i : nat,
     chunks !! i = Some c
     ∧ (min_tokens self ≤ tokens_of self (text c)
        ∨ S i = length chunks
        ∨ ∃ next_chunk,
            chunks !! S i = Some next_chunk
            ∧ max_tokens self
              < tokens_of self (text c) + tokens_of self (text next_chunk)))
  ∨ (∃ (i : nat) current next_chunk,
       chunks !! i = Some current
       ∧ chunks !! S i = Some next_chunk
       ∧ c = merged_chunk current next_chunk
       ∧ tokens_of self (text current) < min_tokens self
       ∧ tokens_of self (text current) + tokens_of self (text next_chunk)
         ≤ max_tokens self).

(** The floor on output sizes as the specification words it: an output
    chunk under [min_tokens] is the last one, or cannot be merged with its
    successor within [max_tokens]. *)
Definition normalizer_floor (self : TreeSitterChunker)
  (output : list Chunk) : Prop :=
  ∀ (j : nat) c,
    output !! j = Some c →
    min_tokens self ≤ tokens_of self (text c)
    ∨ S j = length output
    ∨ ∃ d, output !! S j = Some d
           ∧ max_tokens self
             < tokens_of self (text c) + tokens_of self (text d).

(** A file is marked failed: it is counted as seen and as failed, and
    nothing is written for it. *)
Definition marked_failed (w w' : World) : Prop :=
  stats w' = incr_failed_files (incr_total_files (stats w))
  ∧ chunks_jsonl w' = chunks_jsonl w.

(** Overlap as the specification words it: the two slices of the chunk at
    position [i] are cut at the line numbers its neighbours had before any
    overlap was applied. *)
Definition add_overlap_original (self : TreeSitterChunker)
  (chunks : list Chunk) (content : string) : list Chunk :=
  if Py.len chunks <=? 1 then chunks
  else
    let lines := Py.split_nl content in
    imap (fun i chunk =>
            overlap_next self lines chunks i
              (overlap_prev self lines chunks i chunk))
         chunks.

(** [ceil(n / 4)], the fallback estimate of the specification. *)
Definition ceil_div4 (n : Z) : Z := (n + 3) / 4.

(** The first line of [text] that holds a character other than white
    space, without the white space around it; empty when there is none. *)
Definition first_nonblank_line (text : string) : string :=
  match List.find (fun l => negb (String.eqb (Py.strip l) ""))
                  (Py.split_nl text) with
  | Some l => Py.strip l
  | None => ""
  end.

(** The label of a summary, as the specification lists them. *)
Definition summary_label (str_title : string -> string)
  (node_type : string) : string :=
  if str_in node_type ["function"; "method"] then "Function:"
  else if str_in node_type ["class"] then "Class:"
  else if str_in node_type ["import"; "import_statement"] then "Import:"
  else str_title node_type +:+ ":".

(** The summary as the specification words it: the label, then the line
    cut to 100 characters. *)
Definition summary_as_specified (str_title : string -> string)
  (text node_type : string) : string :=
  summary_label str_title node_type +:+ " " +:+
  Py.str_prefix 100 (first_nonblank_line text).

(** [tiling from ls cs]: the chunks [cs], in order, cut the lines [ls],
    numbered from [from], into consecutive non-empty ranges, and each
    chunk holds the newline-join of the lines of its range. *)
Inductive tiling : Z -> list string -> list Chunk -> Prop :=
  | tiling_nil from : tiling from [] []
  | tiling_cons from seg rest c cs :
      seg ≠ [] ->
      start_line c = from ->
      end_line c = from + Py.len seg - 1 ->
      text c = Py.join_nl seg ->
      tiling (from + Py.len seg) rest cs ->
      tiling from (seg ++ rest) (c :: cs).

(** ** Inputs on which the model is run *)

Module Scenario.

(** No tokenizer and no grammar: the state of a chunker built where
    tiktoken and the tree-sitter bindings are not installed. *)
Definition heuristic : TokenEstimator := {| encoder := None |}.

Definition no_grammar (language content : string) : list Chunk := [].

Definition chunker (max min overlap : Z) : TreeSitterChunker :=
  {| max_tokens := max; min_tokens := min; overlap_tokens := overlap;
     token_estimator := heuristic; structural_nodes := no_grammar |}.

(** The defaults of the constructor. *)
Definition default_chunker : TreeSitterChunker := chunker 25000 50 1000.

(** Three chunks of one token each. *)
Definition three_small : list Chunk :=
  [block 1 1 1 "aaaa"; block 2 2 2 "bbbb"; block 3 3 3 "cccc"].

(** Four lines of one token each. *)
Definition four_lines : string :=
  "aaaa" +:+ Py.NL +:+ "bbbb" +:+ Py.NL +:+ "cccc" +:+ Py.NL +:+ "dddd".

(** A line of 101 characters. *)
Definition long_line : string :=
  string_of_list_ascii (replicate 101 "a"%char).

Definition fresh : World :=
  {| stats := {| scanned_folders := 0; total_files := 0; parsed_files := 0;
                 failed_files := 0; total_chunks := 0;
                 chunks_by_language := ∅ |};
     chunks_jsonl := [] |}.

(** A file system in which every file is empty. *)
Definition empty_files (filepath : string) : option (string * string) :=
  Some ("", "2024-01-01T00:00:00").

(** A file system in which no file can be read. *)
Definition unreadable (filepath : string) : option (string * string) := None.

End Scenario.

(** ** Sizes and partitions of lines *)

Section Partition.

Variable self : TreeSitterChunker.

(** The running total [current_tokens] of a list of lines. *)
Definition sum_tokens (ls : list string) : Z :=
  foldr (fun l acc => tokens_of self l + acc) 0 ls.

(** A group of lines respects the ceiling: its total is within
    [max_tokens], or it is one line. *)
Definition within_ceiling (seg : list string) : Prop :=
  sum_tokens seg ≤ max_tokens self ∨ length seg = 1%nat.

(** Each group but the last was closed because the first line of the
    next group did not fit. *)
Fixpoint greedy_chain (segs : list (list string)) : Prop :=
  match segs with
  | s1 :: rest =>
      match rest with
      | s2 :: _ =>
          (∀ l, head s2 = Some l →
                max_tokens self < sum_tokens s1 + tokens_of self l)
          ∧ greedy_chain rest
      | [] => True
      end
  | [] => True
  end.

End Partition.

(** The chunks [_fallback_chunking] builds for consecutive groups of
    lines, the first chunk numbered [n] and starting at line [from]. *)
Fixpoint blocks_of (n from : Z) (segs : list (list string)) : list Chunk :=
  match segs with
  | [] => []
  | seg :: rest =>
      block n from (from + Py.len seg - 1) (Py.join_nl seg)
      :: blocks_of (n + 1) (from + Py.len seg) rest
  end.

(** ** [write_manifest] and what a run records *)

Definition add_total_chunks (n : Z) (s : Stats) : Stats :=
  {| scanned_folders := scanned_folders s;
     total_files := total_files s;
     parsed_files := parsed_files s;
     failed_files := failed_files s;
     total_chunks := total_chunks s + n;
     chunks_by_language := chunks_by_language s |}.

(** The sum of the per-language counts. *)
Definition language_sum (m : gmap string Z) : Z :=
  map_fold (fun _ n acc => n + acc) 0 m.

(** [sum(d.get(lang, 0) * 1000 for lang in d)] in [write_manifest]. *)
Definition manifest_total_tokens (s : Stats) : Z :=
  map_fold (fun _ n acc => n * 1000 + acc) 0 (chunks_by_language s).

(** The value of [stats['avg_chunk_tokens']] after [write_manifest], the
    value before being [avg_chunk_tokens]. *)
Definition write_manifest_avg (s : Stats) (avg_chunk_tokens : Z) : Z :=
  if 0 <? total_chunks s
  then manifest_total_tokens s / total_chunks s
  else avg_chunk_tokens.

(** A record of [chunks.jsonl] agrees with itself: identifier,
    fingerprint, estimate, summary and imports are those of its own
    path, lines, text, type and language. *)
Definition record_consistent (self : TreeSitterChunker)
  (sha1_hexdigest str_title : string -> string) (d : ChunkData) : Prop :=
  cd_id d = create_chunk_id sha1_hexdigest (cd_filepath d) (cd_start_line d)
              (cd_end_line d) (cd_text d)
  ∧ cd_id d = "sha1:" +:+ cd_code_fingerprint d
  ∧ cd_tokens_estimate d = estimate_tokens (token_estimator self) (cd_text d)
  ∧ cd_summary d = generate_summary str_title (cd_text d) (cd_node_type d)
  ∧ cd_imports d = extract_imports (cd_text d) (cd_language d).

(** ** Structural parsing: the code around tree-sitter *)

(** [node.text.decode('utf8') if hasattr(node, 'text') else '']: the node
    has no attribute [text], or a text that decodes, or one on which
    [decode] raises. *)
Inductive NodeText : Type :=
  | NoTextAttribute
  | Utf8Text (s : string)
  | Undecodable.

(** What the code reads of a captured node: [type], the rows of
    [start_point] and [end_point], [text]. *)
Record TsNode := mkTsNode {
  ts_type : string;
  ts_start_row : Z;
  ts_end_row : Z;
  ts_text : NodeText
}.

Definition comment_types : list string :=
  ["comment"; "line_comment"; "block_comment"].

(** [capture_name or node.type] *)
Definition _extract_node_name (node : TsNode) (capture_name : string)
  : string :=
  if String.eqb capture_name "" then ts_type node else capture_name.

Definition node_chunk (node : TsNode) (capture_name : string) (t : string)
  : Chunk :=
  {| type_ := ts_type node;
     name := _extract_node_name node capture_name;
     start_line := ts_start_row node + 1;
     end_line := ts_end_row node + 1;
     text := t;
     capture_name := capture_name;
     parser_fallback := None |}.

(** The loop over the captures; [None] when building a dictionary
    raises, which the [except] clause of the caller turns into [[]]. *)
Fixpoint extract_loop (captures : list (TsNode * string))
  (nodes : list Chunk) : option (list Chunk) :=
  match captures with
  | [] => Some nodes
  | (node, capture_name) :: rest =>
      if str_in (ts_type node) comment_types then extract_loop rest nodes
      else
        match ts_text node with
        | Undecodable => None
        | Utf8Text t =>
            extract_loop rest (nodes ++ [node_chunk node capture_name t])
        | NoTextAttribute =>
            extract_loop rest (nodes ++ [node_chunk node capture_name ""])
        end
  end.

(** A capture that ends the extraction: a node that is not a comment and
    whose text does not decode. *)
Definition breaks_extraction (capture : TsNode * string) : bool :=
  negb (str_in (ts_type capture.1) comment_types)
  && match ts_text capture.1 with Undecodable => true | _ => false end.

Definition capture_chunk (capture : TsNode * string) : Chunk :=
  node_chunk capture.1 capture.2
    match ts_text capture.1 with Utf8Text t => t | _ => "" end.

Definition language_table : list (string * string) :=
  [("python", "python"); ("javascript", "javascript");
   ("typescript", "typescript"); ("java", "java")].

Definition query_files : list (string * string) :=
  [("python", "python.scm"); ("javascript", "javascript.scm");
   ("java", "java.scm")].

Section Structural.

(** The parser and tree objects of the tree-sitter library. *)
Variables Parser Tree : Type.

(** What the chunker finds where it runs. [ts_lang_so] is the
    environment variable [TS_LANG_SO]; [load_language path lang] is
    [Language(path, lang)] followed by [Parser().set_language], [None]
    when one of them raises; [read_query filename] is [None] when the
    file does not exist under [queries_dir], [Some None] when reading it
    raises; [parse] and [captures] are [parser.parse] and the query run
    on the tree, [None] when they raise. *)
Record Environment := mkEnvironment {
  tree_sitter_available : bool;
  ts_lang_so : option string;
  load_language : string -> string -> option Parser;
  read_query : string -> option (option string);
  parse : Parser -> string -> option Tree;
  captures : Tree -> string -> option (list (TsNode * string))
}.

Variable env : Environment.

(** [if os.getenv('TS_LANG_SO'):] *)
Definition lang_so_path : option string :=
  match ts_lang_so env with
  | Some path => if String.eqb path "" then None else Some path
  | None => None
  end.

Definition _setup_parsers : gmap string Parser :=
  if tree_sitter_available env then
    foldl (fun parsers '(lang_name, ts_lang) =>
             match lang_so_path with
             | Some lang_path =>
                 match load_language env lang_path ts_lang with
                 | Some parser => <[lang_name := parser]> parsers
                 | None => parsers
                 end
             | None => parsers
             end)
          ∅ language_table
  else ∅.

Definition _load_queries : gmap string string :=
  foldl (fun queries '(lang, filename) =>
           match read_query env filename with
           | Some (Some query_text) => <[lang := query_text]> queries
           | _ => queries
           end)
        ∅ query_files.

Definition _parse_with_tree_sitter (content language : string)
  : option Tree :=
  match _setup_parsers !! language, _load_queries !! language with
  | Some parser, Some _ => parse env parser content
  | _, _ => None
  end.

Definition _extract_nodes_with_query (tree : Tree) (language : string)
  : list Chunk :=
  match _load_queries !! language with
  | None => []
  | Some query_text =>
      match captures env tree query_text with
      | None => []
      | Some found => default [] (extract_loop found [])
      end
  end.

(** The first lines of [chunk_file]: the nodes of the tree, [[]] when
    there is no tree. *)
Definition structural_nodes_of (language content : string) : list Chunk :=
  match _parse_with_tree_sitter content language with
  | Some tree => _extract_nodes_with_query tree language
  | None => []
  end.

(** The chunker [TreeSitterChunker(queries_dir, max_tokens, min_tokens,
    overlap_tokens)] built in this environment. *)
Definition chunker_in (max min overlap : Z) (estimator : TokenEstimator)
  : TreeSitterChunker :=
  {| max_tokens := max; min_tokens := min; overlap_tokens := overlap;
     token_estimator := estimator;
     structural_nodes := structural_nodes_of |}.

End Structural.

Arguments tree_sitter_available {Parser Tree} _.
Arguments ts_lang_so {Parser Tree} _.
Arguments load_language {Parser Tree} _ _ _.
Arguments read_query {Parser Tree} _ _.
Arguments parse {Parser Tree} _ _ _.
Arguments captures {Parser Tree} _ _ _.

(** ** Further inputs on which the model is run *)

Module Cases.

(** Two tokens a chunk, one line of overlap. *)
Definition packer : TreeSitterChunker := Scenario.chunker 2 0 4.

(** The same without overlap. *)
Definition packer_no_overlap : TreeSitterChunker := Scenario.chunker 2 0 0.

Definition first_block : Chunk :=
  block 1 1 2 ("aaaa" +:+ Py.NL +:+ "bbbb").

Definition second_block : Chunk :=
  block 2 3 4 ("cccc" +:+ Py.NL +:+ "dddd").

(** The chunks of [Scenario.four_lines] under [packer]. *)
Definition two_blocks : list Chunk := [first_block; second_block].

(** Two chunks of seven characters, one token each. *)
Definition seven_a : Chunk := block 1 1 1 "aaaaaaa".
Definition seven_b : Chunk := block 2 2 2 "bbbbbbb".

(** A machine without tree-sitter. *)
Definition bare : Environment unit unit :=
  {| tree_sitter_available := false;
     ts_lang_so := None;
     load_language := fun _ _ => None;
     read_query := fun _ => None;
     parse := fun _ _ => None;
     captures := fun _ _ => None |}.

(** The captures of a function with a comment before it. *)
Definition sample_captures : list (TsNode * string) :=
  [({| ts_type := "comment"; ts_start_row := 0; ts_end_row := 0;
       ts_text := Utf8Text "# say hello" |}, "comment");
   ({| ts_type := "function_definition"; ts_start_row := 1;
       ts_end_row := 2;
       ts_text := Utf8Text ("def f():" +:+ Py.NL +:+ "    pass") |},
    "function")].

(** A machine with every grammar and every query file. *)
Definition equipped : Environment unit unit :=
  {| tree_sitter_available := true;
     ts_lang_so := Some "/usr/lib/languages.so";
     load_language := fun _ _ => Some tt;
     read_query := fun _ => Some (Some "(function_definition) @function");
     parse := fun _ _ => Some tt;
     captures := fun _ _ => Some sample_captures |}.

End Cases.

(** * Properties *)

(** ** Strings and slices *)

Module PyFacts.
Import Py.

Lemma str_app_cons c s t : String c s +:+ t = String c (s +:+ t).
Proof. reflexivity. Qed.

Lemma str_app_nil_l s : "" +:+ s = s.
Proof. reflexivity. Qed.

Lemma str_app_nil_r s : s +:+ "" = s.
Proof. induction s as [|c s IH]; [reflexivity|]. by rewrite str_app_cons, IH. Qed.

Lemma str_app_assoc s t u : (s +:+ t) +:+ u = s +:+ (t +:+ u).
Proof.
  induction s as [|c s IH]; [reflexivity|].
  by rewrite !str_app_cons, IH.
Qed.

Lemma str_length_app s t :
  String.length (s +:+ t) = (String.length s + String.length t)%nat.
Proof.
  induction s as [|c s IH]; [reflexivity|].
  rewrite str_app_cons. simpl. by rewrite IH.
Qed.

Lemma split_nl_nonempty s : split_nl s ≠ [].
Proof.
  destruct s as [|c s]; simpl; [done|].
  destruct (is_newline c); [done|]. by destruct (split_nl s).
Qed.

Lemma join_nl_singleton l : join_nl [l] = l.
Proof. reflexivity. Qed.

Lemma join_nl_cons l ls :
  ls ≠ [] → join_nl (l :: ls) = l +:+ NL +:+ join_nl ls.
Proof. destruct ls; [done|reflexivity]. Qed.

Lemma join_nl_app ls1 ls2 :
  ls1 ≠ [] → ls2 ≠ [] →
  join_nl (ls1 ++ ls2) = join_nl ls1 +:+ NL +:+ join_nl ls2.
Proof.
  intros H1 H2. induction ls1 as [|l ls1 IH]; [done|].
  destruct ls1 as [|l' ls1].
  - simpl app. by rewrite join_nl_cons, join_nl_singleton.
  - rewrite <- app_comm_cons.
    rewrite join_nl_cons by done. rewrite IH by done.
    rewrite (join_nl_cons l (l' :: ls1)) by done.
    by rewrite !str_app_assoc.
Qed.

Lemma is_newline_true c : is_newline c = true → c = newline.
Proof. unfold is_newline. by intros ?%Ascii.eqb_eq. Qed.

(** Joining the lines of a text gives the text back. *)
Lemma join_split_nl s : join_nl (split_nl s) = s.
Proof.
  induction s as [|c s IH]; [reflexivity|]. simpl.
  destruct (is_newline c) eqn:Hc.
  - apply is_newline_true in Hc as ->.
    rewrite join_nl_cons by apply split_nl_nonempty.
    by rewrite IH.
  - pose proof (split_nl_nonempty s) as Hne.
    destruct (split_nl s) as [|l ls]; [done|].
    destruct ls as [|l' ls].
    + rewrite join_nl_singleton in *. by rewrite IH.
    + rewrite join_nl_cons in * by done.
      by rewrite str_app_cons, IH.
Qed.

Lemma len_app {A} (l1 l2 : list A) : len (l1 ++ l2) = len l1 + len l2.
Proof. unfold len. rewrite length_app. lia. Qed.

Lemma len_nonneg {A} (l : list A) : 0 ≤ len l.
Proof. unfold len. lia. Qed.

Lemma len_pos {A} (l : list A) : l ≠ [] → 0 < len l.
Proof. destruct l; [done|]. unfold len. simpl. lia. Qed.

Lemma slice_bound_id n i : 0 ≤ i ≤ n → slice_bound n i = i.
Proof.
  intros H. unfold slice_bound.
  destruct (Z.ltb_spec i 0); lia.
Qed.

(** The slice that cuts a segment out of a list. *)
Lemma slice_middle {A} (pre seg post : list A) :
  slice (pre ++ seg ++ post) (len pre) (len pre + len seg) = seg.
Proof.
  unfold slice.
  pose proof (len_nonneg pre). pose proof (len_nonneg seg).
  pose proof (len_nonneg post).
  rewrite !slice_bound_id by (rewrite !len_app; lia).
  replace (Z.to_nat (len pre)) with (length pre) by (unfold len; lia).
  rewrite drop_app_length.
  replace (Z.to_nat (len pre + len seg - len pre)) with (length seg)
    by (unfold len; lia).
  by rewrite take_app_length.
Qed.

End PyFacts.

(** ** Line coverage of the fallback path *)

Section Coverage.

Variable self : TreeSitterChunker.
Import Py PyFacts.

Lemma tiling_empty from ls cs : tiling from ls cs → (cs = [] ↔ ls = []).
Proof.
  destruct 1 as [|from seg rest c cs Hseg]; [done|].
  split; [done|]. intros [? _]%app_eq_nil. done.
Qed.

Lemma tiling_snoc from ls cs seg c :
  tiling from ls cs →
  seg ≠ [] →
  start_line c = from + len ls →
  end_line c = from + len ls + len seg - 1 →
  text c = join_nl seg →
  tiling from (ls ++ seg) (cs ++ [c]).
Proof.
  intros Ht Hseg. revert c.
  induction Ht as [from|from seg' rest c' cs Hseg' Hs He Htx Ht IH];
    intros c Hstart Hend Htext.
  - simpl. rewrite <- (app_nil_r seg).
    apply tiling_cons; try done.
    + rewrite Hstart. unfold len. simpl. lia.
    + rewrite Hend. unfold len. simpl. lia.
    + apply tiling_nil.
  - rewrite <- app_assoc. simpl.
    apply tiling_cons; try done.
    apply IH; rewrite ?Hstart, ?Hend, ?len_app; try done; lia.
Qed.

(** The invariant of the loop of [_fallback_chunking]: the closed chunks
    tile the lines read before the accumulator. *)
Lemma fallback_loop_tiling rest : ∀ i st covered,
  tiling 1 covered (fb_chunks st) →
  i = 1 + len covered + len (fb_current_chunk st) →
  ∃ covered',
    covered' ++ fb_current_chunk (fallback_loop self rest i st)
      = covered ++ fb_current_chunk st ++ rest
    ∧ tiling 1 covered' (fb_chunks (fallback_loop self rest i st))
    ∧ (rest ≠ [] ∨ fb_current_chunk st ≠ [] →
       fb_current_chunk (fallback_loop self rest i st) ≠ []).
Proof.
  induction rest as [|line rest IH]; intros i st covered Ht Hi.
  - exists covered. rewrite app_nil_r. simpl. split_and!; [done..|].
    intros [?|?]; done.
  - simpl fallback_loop. unfold fallback_step.
    destruct (_ && _) eqn:Hflush.
    + apply andb_prop in Hflush as [_ Hcur].
      assert (fb_current_chunk st ≠ []) as Hne
        by (destruct (fb_current_chunk st); done).
      lazymatch goal with
      | |- context [fallback_loop self rest (i + 1) ?s] =>
          destruct (IH (i + 1) s (covered ++ fb_current_chunk st))
            as (covered' & Heq & Ht' & Hcur')
      end.
      * simpl. apply tiling_snoc; simpl; try done; lia.
      * simpl. rewrite len_app. unfold len at 3. simpl. lia.
      * exists covered'. simpl in *. split_and!; [|done|].
        -- rewrite Heq. by rewrite <- app_assoc.
        -- intros _. apply Hcur'. by right.
    + lazymatch goal with
      | |- context [fallback_loop self rest (i + 1) ?s] =>
          destruct (IH (i + 1) s covered) as (covered' & Heq & Ht' & Hcur')
      end.
      * done.
      * simpl. rewrite len_app. unfold len at 3. simpl. lia.
      * exists covered'. simpl in *. split_and!; [|done|].
        -- rewrite Heq. by rewrite <- !app_assoc.
        -- intros _. apply Hcur'. right. by destruct (fb_current_chunk st).
Qed.

(** [_fallback_chunking] tiles the lines of the content. *)
Lemma fallback_chunking_tiling content filepath :
  tiling 1 (split_nl content) (_fallback_chunking self content filepath).
Proof.
  unfold _fallback_chunking.
  destruct (fallback_loop_tiling (split_nl content) 1 fallback_init [])
    as (covered & Heq & Ht & Hcur); [apply tiling_nil|done|].
  simpl in Heq.
  specialize (Hcur (or_introl (split_nl_nonempty content))).
  set (st := fallback_loop self (split_nl content) 1 fallback_init) in *.
  destruct (fb_current_chunk st) as [|l cur] eqn:Hst; [done|].
  simpl truthy. cbv iota. rewrite <- Heq.
  apply tiling_snoc; simpl; try done.
  - rewrite len_app. lia.
  - rewrite len_app. lia.
Qed.

(** *** The normalizer as a recursion on the unread suffix *)

Lemma merge_cases (P : list Chunk → Prop) :
  P [] →
  (∀ c, P [c]) →
  (∀ a b rest,
     (tokens_of self (text a) <? min_tokens self)
     && (tokens_of self (text a) + tokens_of self (text b)
         <=? max_tokens self) = true →
     P rest → P (a :: b :: rest)) →
  (∀ a b rest,
     (tokens_of self (text a) <? min_tokens self)
     && (tokens_of self (text a) + tokens_of self (text b)
         <=? max_tokens self) = false →
     P (b :: rest) → P (a :: b :: rest)) →
  ∀ l, P l.
Proof.
  intros Hnil Hone Hmerge Hpass l.
  assert (∀ n l, (length l ≤ n)%nat → P l) as Hn; [|by eapply Hn].
  clear l. induction n as [|n IH]; intros l Hl.
  - destruct l; [done|simpl in Hl; lia].
  - destruct l as [|a [|b rest]]; [done..|].
    simpl in Hl.
    destruct ((tokens_of self (text a) <? min_tokens self)
              && (tokens_of self (text a) + tokens_of self (text b)
                  <=? max_tokens self)) eqn:Hc.
    + apply Hmerge; [done|]. apply IH. lia.
    + apply Hpass; [done|]. apply IH. simpl. lia.
Qed.

Lemma merge_suffix_merge a b rest :
  (tokens_of self (text a) <? min_tokens self)
  && (tokens_of self (text a) + tokens_of self (text b)
      <=? max_tokens self) = true →
  merge_suffix self (a :: b :: rest)
  = merged_chunk a b :: merge_suffix self rest.
Proof. intros H. simpl. by rewrite H. Qed.

Lemma merge_suffix_pass a b rest :
  (tokens_of self (text a) <? min_tokens self)
  && (tokens_of self (text a) + tokens_of self (text b)
      <=? max_tokens self) = false →
  merge_suffix self (a :: b :: rest) = a :: merge_suffix self (b :: rest).
Proof. intros H. simpl. by rewrite H. Qed.

(** With [len(chunks) - i] iterations the loop has read the whole list,
    and what it appends to [merged] is [merge_suffix] of [chunks[i:]]. *)
Lemma merge_loop_suffix fuel : ∀ chunks i merged,
  (length chunks - i ≤ fuel)%nat →
  merge_loop self fuel chunks i merged
  = merged ++ merge_suffix self (drop i chunks).
Proof.
  induction fuel as [|fuel IH]; intros chunks i merged Hfuel.
  - rewrite drop_ge by lia. simpl. by rewrite app_nil_r.
  - simpl merge_loop.
    destruct (chunks !! i) as [current|] eqn:Hi.
    2:{ apply lookup_ge_None in Hi. rewrite drop_ge by lia.
        simpl. by rewrite app_nil_r. }
    pose proof (lookup_lt_Some _ _ _ Hi) as Hlt.
    rewrite (drop_S _ _ _ Hi).
    replace (i + 1)%nat with (S i) by lia.
    replace (i + 2)%nat with (S (S i)) by lia.
    destruct (chunks !! S i) as [next_chunk|] eqn:Hi1.
    + pose proof (lookup_lt_Some _ _ _ Hi1) as Hlt1.
      rewrite (drop_S _ _ _ Hi1).
      assert ((Z.of_nat i <? len chunks - 1) = true) as ->
        by (apply Z.ltb_lt; unfold len; lia).
      rewrite andb_true_r.
      destruct (tokens_of self (text current) <? min_tokens self) eqn:Hmin;
        [destruct (_ <=? max_tokens self) eqn:Hmax|].
      * rewrite merge_suffix_merge by (by rewrite Hmin, Hmax).
        rewrite IH by lia. by rewrite <- app_assoc.
      * rewrite merge_suffix_pass by (by rewrite Hmin, Hmax).
        rewrite IH by lia. rewrite (drop_S _ _ _ Hi1).
        by rewrite <- app_assoc.
      * rewrite merge_suffix_pass by (by rewrite Hmin).
        rewrite IH by lia. rewrite (drop_S _ _ _ Hi1).
        by rewrite <- app_assoc.
    + apply lookup_ge_None in Hi1.
      assert ((Z.of_nat i <? len chunks - 1) = false) as ->
        by (apply Z.ltb_ge; unfold len; lia).
      rewrite andb_false_r.
      rewrite IH by lia. rewrite (drop_ge chunks (S i)) by lia.
      simpl. by rewrite <- app_assoc.
Qed.

Lemma merge_small_chunks_suffix chunks :
  _merge_small_chunks self chunks = merge_suffix self chunks.
Proof.
  unfold _merge_small_chunks. destruct chunks as [|c chunks]; [done|].
  simpl truthy. cbv iota.
  rewrite merge_loop_suffix by lia. by rewrite drop_0.
Qed.

(** Merging keeps a tiling: a merged chunk covers the two ranges. *)
Lemma tiling_merge_suffix cs : ∀ from ls,
  tiling from ls cs → tiling from ls (merge_suffix self cs).
Proof.
  induction cs as [| c | a b rest Hc IH | a b rest Hc IH] using merge_cases;
    intros from ls Ht; [done..| |].
  - rewrite merge_suffix_merge by done.
    inversion Ht as [|? seg1 ls1 ? ? Hs1 Hst1 He1 Htx1 Ht1]; subst.
    inversion Ht1 as [|? seg2 ls2 ? ? Hs2 Hst2 He2 Htx2 Ht2]; subst.
    rewrite app_assoc.
    apply tiling_cons.
    + by destruct seg1.
    + done.
    + simpl. rewrite He2, len_app. lia.
    + simpl. rewrite Htx1, Htx2. by rewrite join_nl_app.
    + apply IH. rewrite len_app.
      by replace (start_line a + (len seg1 + len seg2))
        with (start_line a + len seg1 + len seg2) by lia.
  - rewrite merge_suffix_pass by done.
    inversion Ht as [|? seg1 ls1 ? ? Hs1 Hst1 He1 Htx1 Ht1]; subst.
    apply tiling_cons; try done. by apply IH.
Qed.

(** *** What a tiling says chunk by chunk *)

Lemma tiling_head from ls c cs :
  tiling from ls (c :: cs) → start_line c = from.
Proof. by inversion 1. Qed.

Lemma tiling_adjacent from ls cs :
  tiling from ls cs →
  ∀ i c d, cs !! i = Some c → cs !! S i = Some d →
           start_line d = end_line c + 1.
Proof.
  induction 1 as [|from seg rest c0 cs Hseg Hs He Htx Ht IH];
    intros i c d Hc Hd; [by rewrite lookup_nil in Hc|].
  destruct i as [|i].
  - simpl in Hc. injection Hc as <-. simpl in Hd.
    destruct cs as [|d' cs]; [done|]. simpl in Hd. injection Hd as <-.
    apply tiling_head in Ht. lia.
  - simpl in Hc, Hd. by eapply IH.
Qed.

Lemma tiling_last from ls cs :
  tiling from ls cs →
  ∀ c, last cs = Some c → end_line c = from + len ls - 1.
Proof.
  induction 1 as [|from seg rest c0 cs Hseg Hs He Htx Ht IH];
    intros c Hc; [done|].
  destruct cs as [|c1 cs].
  - simpl in Hc. injection Hc as <-.
    apply tiling_empty in Ht.
    assert (rest = []) as -> by (by apply Ht).
    by rewrite app_nil_r.
  - rewrite last_cons_cons in Hc. apply IH in Hc.
    rewrite len_app. lia.
Qed.

Lemma tiling_range from ls cs :
  tiling from ls cs →
  ∀ c, c ∈ cs →
       ∃ pre seg post,
         ls = pre ++ seg ++ post ∧ seg ≠ []
         ∧ start_line c = from + len pre
         ∧ end_line c = from + len pre + len seg - 1
         ∧ text c = join_nl seg.
Proof.
  induction 1 as [|from seg rest c0 cs Hseg Hs He Htx Ht IH];
    intros c Hc; [by apply elem_of_nil in Hc|].
  apply elem_of_cons in Hc as [->|Hc].
  - exists [], seg, rest. unfold len at 1 2. simpl.
    split_and!; [done..|lia|lia|done].
  - destruct (IH c Hc) as (pre & seg' & post & -> & Hne & Hs' & He' & Htx').
    exists (seg ++ pre), seg', post. rewrite len_app.
    split_and!; [by rewrite <- app_assoc|done|lia|lia|done].
Qed.

Lemma tiling_join from ls cs :
  tiling from ls cs → join_nl (map text cs) = join_nl ls.
Proof.
  induction 1 as [|from seg rest c0 cs Hseg Hs He Htx Ht IH]; [done|].
  destruct cs as [|c1 cs].
  - apply tiling_empty in Ht.
    assert (rest = []) as -> by (by apply Ht).
    rewrite app_nil_r. simpl. by rewrite join_nl_singleton.
  - assert (rest ≠ []) as Hrest.
    { intros ->. apply tiling_empty in Ht.
      assert (c1 :: cs = []) by (by apply Ht). done. }
    simpl map in *. rewrite join_nl_cons by done.
    rewrite IH, Htx. by rewrite join_nl_app.
Qed.

(** C1. On the fallback path the chunks handed to the overlap stage
    ([_fallback_chunking] then [_merge_small_chunks]) cover the lines of
    the content in order and without a gap: the first chunk starts at
    line 1, every chunk starts one line after the end of its predecessor,
    the last chunk ends at the last line, every chunk's text is the
    newline-join of the lines of its range, and the texts joined by
    newlines give the content back. *)
Theorem fallback_normalized_chunks_cover_lines (content filepath : string) :
  let lines := split_nl content in
  let chunks :=
    _merge_small_chunks self (_fallback_chunking self content filepath) in
  (∃ c, head chunks = Some c ∧ start_line c = 1)
  ∧ (∀ i c d, chunks !! i = Some c → chunks !! S i = Some d →
              start_line d = end_line c + 1)
  ∧ (∃ c, last chunks = Some c ∧ end_line c = len lines)
  ∧ (∀ c, c ∈ chunks →
          1 ≤ start_line c ∧ start_line c ≤ end_line c
          ∧ end_line c ≤ len lines
          ∧ text c
            = join_nl (slice lines (start_line c - 1) (end_line c)))
  ∧ join_nl (map text chunks) = content.
Proof.
  intros lines chunks.
  assert (tiling 1 lines chunks) as Ht.
  { unfold chunks. rewrite merge_small_chunks_suffix.
    apply tiling_merge_suffix, fallback_chunking_tiling. }
  assert (chunks ≠ []) as Hne.
  { intros Hnil. apply tiling_empty in Ht. apply Ht in Hnil.
    by apply split_nl_nonempty in Hnil. }
  split_and!.
  - destruct chunks as [|c cs] eqn:Hcs; [done|].
    exists c. split; [done|]. by apply tiling_head in Ht.
  - by apply (tiling_adjacent _ _ _ Ht).
  - destruct (last chunks) as [c|] eqn:Hlast.
    + exists c. split; [done|]. apply (tiling_last _ _ _ Ht) in Hlast. lia.
    + by apply last_None in Hlast.
  - intros c Hc.
    destruct (tiling_range _ _ _ Ht c Hc)
      as (pre & seg & post & Hls & Hseg & Hs & He & Htx).
    pose proof (len_nonneg pre). pose proof (len_pos seg Hseg).
    pose proof (len_nonneg post).
    split_and!; try lia.
    + rewrite Hls, !len_app. lia.
    + rewrite Htx. f_equal. rewrite Hls.
      replace (start_line c - 1) with (len pre) by lia.
      replace (end_line c) with (len pre + len seg) by lia.
      by rewrite slice_middle.
  - rewrite (tiling_join _ _ _ Ht). apply join_split_nl.
Qed.

End Coverage.

(** ** The normalizer *)

Section Normalizer.

Variable self : TreeSitterChunker.
Import Py PyFacts.

Lemma merge_suffix_nil chunks :
  merge_suffix self chunks = [] ↔ chunks = [].
Proof.
  split; [|by intros ->].
  destruct chunks as [|a [|b rest]]; [done..|]. simpl.
  by destruct (_ && _).
Qed.

Lemma merge_suffix_cons_ne a chunks : merge_suffix self (a :: chunks) ≠ [].
Proof. intros H. by apply (proj1 (merge_suffix_nil _)) in H. Qed.

Lemma join_nl_cons_cons l l' ls :
  join_nl (l :: l' :: ls) = l +:+ NL +:+ join_nl (l' :: ls).
Proof. reflexivity. Qed.

Lemma merge_suffix_join chunks :
  join_nl (map text (merge_suffix self chunks)) = join_nl (map text chunks).
Proof.
  induction chunks as [| c | a b rest Hc IH | a b rest Hc IH]
    using (merge_cases self); [done..| |].
  - rewrite merge_suffix_merge by done.
    destruct rest as [|c rest]; [done|].
    pose proof (merge_suffix_cons_ne c rest) as Hne.
    destruct (merge_suffix self (c :: rest)) as [|m ms]; [done|].
    simpl map in *. rewrite !join_nl_cons_cons.
    rewrite IH. simpl text. by rewrite !str_app_assoc.
  - rewrite merge_suffix_pass by done.
    pose proof (merge_suffix_cons_ne b rest) as Hne.
    destruct (merge_suffix self (b :: rest)) as [|m ms]; [done|].
    simpl map in *. rewrite !join_nl_cons_cons. by rewrite IH.
Qed.

Lemma merge_suffix_head chunks :
  start_line <$> head (merge_suffix self chunks)
  = start_line <$> head chunks.
Proof.
  destruct chunks as [|a [|b rest]]; [done..|]. simpl.
  by destruct (_ && _).
Qed.

Lemma merge_suffix_last chunks :
  end_line <$> last (merge_suffix self chunks) = end_line <$> last chunks.
Proof.
  induction chunks as [| c | a b rest Hc IH | a b rest Hc IH]
    using (merge_cases self); [done..| |].
  - rewrite merge_suffix_merge by done.
    destruct rest as [|c rest]; [done|].
    pose proof (merge_suffix_cons_ne c rest) as Hne.
    destruct (merge_suffix self (c :: rest)) as [|m ms]; [done|].
    by rewrite !last_cons_cons in *.
  - rewrite merge_suffix_pass by done.
    pose proof (merge_suffix_cons_ne b rest) as Hne.
    destruct (merge_suffix self (b :: rest)) as [|m ms]; [done|].
    by rewrite !last_cons_cons in *.
Qed.

(** C10. [_merge_small_chunks] keeps the text and the order: the output
    texts joined by newlines are the input texts joined by newlines, the
    first output chunk starts where the first input chunk starts and the
    last output chunk ends where the last input chunk ends. *)
Theorem merge_small_chunks_preserves_text (chunks : list Chunk) :
  join_nl (map text (_merge_small_chunks self chunks))
  = join_nl (map text chunks)
  ∧ start_line <$> head (_merge_small_chunks self chunks)
    = start_line <$> head chunks
  ∧ end_line <$> last (_merge_small_chunks self chunks)
    = end_line <$> last chunks.
Proof.
  rewrite merge_small_chunks_suffix.
  split_and!;
    [apply merge_suffix_join|apply merge_suffix_head|apply merge_suffix_last].
Qed.

Lemma origin_shift chunks a c :
  normalizer_output_origin self chunks c →
  normalizer_output_origin self (a :: chunks) c.
Proof.
  intros [(i & Hi & Hwhy)|(i & x & y & Hx & Hy & Hrest)].
  - left. exists (S i). split; [done|].
    destruct Hwhy as [?|[?|(n & Hn & ?)]]; [by left| |].
    + right; left. simpl. lia.
    + right; right. by exists n.
  - right. by exists (S i), x, y.
Qed.

Lemma merge_suffix_origin chunks :
  ∀ c, c ∈ merge_suffix self chunks →
       normalizer_output_origin self chunks c.
Proof.
  induction chunks as [| c0 | a b rest Hc IH | a b rest Hc IH]
    using (merge_cases self); intros c Hin.
  - by apply elem_of_nil in Hin.
  - apply list_elem_of_singleton in Hin as ->.
    left. exists 0%nat. split; [done|]. by right; left.
  - rewrite merge_suffix_merge in Hin by done.
    apply elem_of_cons in Hin as [->|Hin].
    + apply andb_prop in Hc as [Hmin Hmax].
      apply Z.ltb_lt in Hmin. apply Z.leb_le in Hmax.
      right. by exists 0%nat, a, b.
    + by do 2 apply origin_shift; apply IH.
  - rewrite merge_suffix_pass in Hin by done.
    apply elem_of_cons in Hin as [->|Hin].
    + left. exists 0%nat. split; [done|].
      apply andb_false_iff in Hc as [Hmin|Hmax].
      * left. by apply Z.ltb_ge in Hmin.
      * right; right. exists b. split; [done|]. by apply Z.leb_gt in Hmax.
    + by apply origin_shift, IH.
Qed.

(** C2, as the code has it. Every output chunk of [_merge_small_chunks]
    is either an input chunk passed through, and then it is not under
    [min_tokens] unless it is the last input chunk or it and its successor
    together exceed [max_tokens]; or it is the merge of two adjacent input
    chunks, made once and not looked at again, whatever its size. *)
Theorem merge_small_chunks_output_origin (chunks : list Chunk) (c : Chunk) :
  c ∈ _merge_small_chunks self chunks →
  normalizer_output_origin self chunks c.
Proof. rewrite merge_small_chunks_suffix. apply merge_suffix_origin. Qed.

End Normalizer.

(** ** The fallback segmenter *)

Section Fallback.

Variable self : TreeSitterChunker.
Import Py PyFacts.


(** The accumulator holds a line as soon as one line has been read. *)
Lemma fallback_accumulator_nonempty content :
  fb_current_chunk (fallback_loop self (split_nl content) 1 fallback_init)
  ≠ [].
Proof.
  destruct (fallback_loop_tiling self (split_nl content) 1 fallback_init [])
    as (covered & _ & _ & Hcur); [apply tiling_nil|done|].
  apply Hcur. left. apply split_nl_nonempty.
Qed.

Lemma fallback_chunking_unfold content filepath :
  let lines := split_nl content in
  let st := fallback_loop self lines 1 fallback_init in
  _fallback_chunking self content filepath
  = fb_chunks st ++
      [block (len (fb_chunks st) + 1)
             (len lines - len (fb_current_chunk st) + 1) (len lines)
             (join_nl (fb_current_chunk st))].
Proof.
  intros lines st. unfold _fallback_chunking. fold lines. fold st.
  pose proof (fallback_accumulator_nonempty content) as Hne.
  fold lines in Hne. fold st in Hne.
  by destruct (fb_current_chunk st).
Qed.

Lemma fallback_chunking_nonempty content filepath :
  _fallback_chunking self content filepath ≠ [].
Proof.
  rewrite fallback_chunking_unfold. intros H.
  by apply app_eq_nil in H as [_ ?].
Qed.

(** For an empty content the only line is the empty line, and it is
    closed as a chunk with an empty text. *)
Lemma fallback_chunking_empty filepath :
  _fallback_chunking self "" filepath = [block 1 1 1 ""].
Proof.
  unfold _fallback_chunking. simpl. unfold fallback_step. simpl.
  by rewrite andb_false_r.
Qed.


End Fallback.

(** ** Overlap and the composition *)

Section ChunkFile.

Variable self : TreeSitterChunker.
Variable suffix_lower : string → string.
Import Py PyFacts.

Lemma overlap_step_length lines chunks i :
  length (overlap_step self lines chunks i) = length chunks.
Proof.
  unfold overlap_step. destruct (chunks !! i); [|done].
  apply length_insert.
Qed.

Lemma overlap_fold_length lines indices : ∀ chunks,
  length (foldl (overlap_step self lines) chunks indices) = length chunks.
Proof.
  induction indices as [|i indices IH]; intros chunks; [done|].
  simpl. rewrite IH. apply overlap_step_length.
Qed.

Lemma add_overlap_length chunks content :
  length (_add_overlap self chunks content) = length chunks.
Proof.
  unfold _add_overlap. destruct (_ <=? _); [done|].
  apply overlap_fold_length.
Qed.

Lemma merge_small_chunks_nonempty chunks :
  chunks ≠ [] → _merge_small_chunks self chunks ≠ [].
Proof.
  rewrite merge_small_chunks_suffix. intros Hne H.
  by apply merge_suffix_nil in H.
Qed.

Lemma chunk_file_not_nil filepath content :
  chunk_file self suffix_lower filepath content ≠ [].
Proof.
  unfold chunk_file. intros H.
  apply (f_equal length) in H. rewrite add_overlap_length in H.
  apply length_zero_iff_nil in H.
  apply merge_small_chunks_nonempty in H; [done|].
  destruct (structural_nodes self _ content) eqn:Hn; [|done].
  apply fallback_chunking_nonempty.
Qed.

End ChunkFile.

(** ** The pipeline *)

Section PipelineFacts.

Variable self : TreeSitterChunker.
Variable sha1_hexdigest str_title suffix_lower : string → string.
Variable chunker_chunk_file : string → string → list Chunk.
Variable read_file : string → option (string * string).
Variable output_writable : bool.
Import Py PyFacts.

Let process :=
  process_file self sha1_hexdigest str_title suffix_lower
    chunker_chunk_file read_file output_writable.

Lemma write_chunks_loop_returns filepath chunks language last_modified :
  ∀ w, ∃ w',
    write_chunks_loop self sha1_hexdigest str_title filepath chunks language
      last_modified w = (Returned (), w')
    ∧ parsed_files (stats w') = parsed_files (stats w)
    ∧ failed_files (stats w') = failed_files (stats w)
    ∧ total_files (stats w') = total_files (stats w)
    ∧ length (chunks_jsonl w')
      = (length (chunks_jsonl w) + length chunks)%nat.
Proof.
  induction chunks as [|chunk rest IH]; intros w.
  - exists w. simpl. split_and!; try done; lia.
  - simpl. unfold mbind, Run_bind, update_stats, write_line. simpl.
    edestruct IH as (w' & -> & Hp & Hf & Ht & Hl).
    exists w'. simpl in *. rewrite length_app in Hl. simpl in Hl.
    split_and!; try done. lia.
Qed.

(** [process_file] returns on every file, whatever the file system
    answers. *)
Lemma process_file_returns filepath relative_path w :
  ∃ w', process filepath relative_path w = (Returned (), w')
        ∧ total_files (stats w') = total_files (stats w) + 1.
Proof.
  unfold process, process_file, mbind, Run_bind, try_except, update_stats.
  simpl.
  destruct (read_file filepath) as [[content last_modified]|]; simpl;
    [|by eexists].
  destruct (truthy _); simpl; [|by eexists].
  unfold _write_chunks. destruct output_writable; simpl; [|by eexists].
  edestruct write_chunks_loop_returns as (w' & -> & Hp & Hf & Ht & Hl).
  exists w'. split; [done|]. by rewrite Ht.
Qed.

Lemma process_files_returns files : ∀ w,
  ∃ w', process_files self sha1_hexdigest str_title suffix_lower
          chunker_chunk_file read_file output_writable files w
        = (Returned (), w')
        ∧ total_files (stats w') = total_files (stats w) + len files.
Proof.
  induction files as [|[filepath relative_path] rest IH]; intros w.
  - exists w. split; [done|]. unfold len. simpl. lia.
  - simpl. unfold mbind, Run_bind.
    destruct (process_file_returns filepath relative_path w)
      as (w1 & Hrun & Ht1).
    unfold process in Hrun. rewrite Hrun.
    destruct (IH w1) as (w' & -> & Ht).
    exists w'. split; [done|]. rewrite Ht, Ht1. unfold len. simpl length. lia.
Qed.

Lemma process_file_failed filepath relative_path w :
  (read_file filepath = None
   ∨ ∃ content last_modified,
       read_file filepath = Some (content, last_modified)
       ∧ chunker_chunk_file filepath content = []) →
  ∃ w', process filepath relative_path w = (Returned (), w')
        ∧ marked_failed w w'.
Proof.
  unfold process, process_file, mbind, Run_bind, try_except, update_stats.
  intros [Hread|(content & last_modified & Hread & Hnil)]; rewrite Hread;
    simpl.
  - by eexists.
  - rewrite Hnil. simpl. by eexists.
Qed.

(** A file that is read and chunked into at least one chunk is counted
    as parsed, not as failed, when the output can be written. *)
Lemma process_file_parsed filepath relative_path content last_modified w :
  read_file filepath = Some (content, last_modified) →
  chunker_chunk_file filepath content ≠ [] →
  output_writable = true →
  ∃ w', process filepath relative_path w = (Returned (), w')
        ∧ parsed_files (stats w') = parsed_files (stats w) + 1
        ∧ failed_files (stats w') = failed_files (stats w)
        ∧ length (chunks_jsonl w')
          = (length (chunks_jsonl w)
             + length (chunker_chunk_file filepath content))%nat.
Proof.
  intros Hread Hne Hw.
  unfold process, process_file, mbind, Run_bind, try_except, update_stats.
  rewrite Hread. simpl.
  destruct (chunker_chunk_file filepath content) as [|c cs] eqn:Hcs; [done|].
  change (truthy (c :: cs)) with true. unfold _write_chunks. rewrite Hw.
  cbv beta iota.
  lazymatch goal with
  | |- context [write_chunks_loop _ _ _ ?fp ?l ?lang ?lm ?w0] =>
      destruct (write_chunks_loop_returns fp l lang lm w0)
        as (w' & Hrun & Hp & Hf & Ht & Hl)
  end.
  rewrite Hrun. exists w'. simpl in *. by rewrite Hp, Hf, Hl.
Qed.

(** The two ways [process_file] has to mark a file failed: the [except]
    clause, when reading the file raises, and the [else] branch of
    [if chunks:], when the chunker returns no chunk. Either way nothing
    is written, [process_file] returns without raising, and the files
    after it are processed. *)
Theorem process_file_marks_failed
  (filepath relative_path : string) (w : World) :
  (read_file filepath = None
   ∨ ∃ content last_modified,
       read_file filepath = Some (content, last_modified)
       ∧ chunker_chunk_file filepath content = []) →
  (∃ w', process_file self sha1_hexdigest str_title suffix_lower
           chunker_chunk_file read_file output_writable
           filepath relative_path w = (Returned (), w')
         ∧ marked_failed w w')
  ∧ (∀ rest,
       ∃ w'', process_files self sha1_hexdigest str_title suffix_lower
                chunker_chunk_file read_file output_writable
                ((filepath, relative_path) :: rest) w = (Returned (), w'')
              ∧ total_files (stats w'')
                = total_files (stats w) + 1 + len rest).
Proof.
  intros Hfail. split.
  - by apply process_file_failed.
  - intros rest.
    destruct (process_files_returns ((filepath, relative_path) :: rest) w)
      as (w'' & Hrun & Ht).
    exists w''. split; [done|]. rewrite Ht. unfold len. simpl length. lia.
Qed.

End PipelineFacts.

(** C9. [chunk_file] returns at least one chunk for every path and
    content: the fallback segmenter always emits a chunk (for the empty
    content the chunk of line 1 with the empty text), the normalizer
    keeps a non-empty list non-empty and the overlap stage keeps the
    length. So a file that is read is never counted as failed for want
    of chunks. *)
Theorem chunk_file_never_empty (self : TreeSitterChunker)
  (suffix_lower : string → string) (filepath content : string) :
  chunk_file self suffix_lower filepath content ≠ []
  ∧ (∀ content', _fallback_chunking self content' filepath ≠ [])
  ∧ _fallback_chunking self "" filepath = [block 1 1 1 ""]
  ∧ (∀ chunks, chunks ≠ [] → _merge_small_chunks self chunks ≠ [])
  ∧ (∀ chunks content',
       length (_add_overlap self chunks content') = length chunks)
  ∧ (∀ sha1_hexdigest str_title read_file relative_path last_modified w,
       read_file filepath = Some (content, last_modified) →
       ∃ w', repo_process_file self sha1_hexdigest str_title suffix_lower
               read_file true filepath relative_path w = (Returned (), w')
             ∧ parsed_files (stats w') = parsed_files (stats w) + 1
             ∧ failed_files (stats w') = failed_files (stats w)).
Proof.
  split_and!.
  - apply chunk_file_not_nil.
  - intros content'. apply fallback_chunking_nonempty.
  - apply fallback_chunking_empty.
  - apply merge_small_chunks_nonempty.
  - apply add_overlap_length.
  - intros sha1_hexdigest str_title read_file relative_path last_modified w
      Hread.
    unfold repo_process_file.
    edestruct process_file_parsed as (w' & Hrun & Hp & Hf & _);
      [exact Hread|apply chunk_file_not_nil|reflexivity|].
    exists w'. split_and!; [exact Hrun|exact Hp|exact Hf].
Qed.

(** ** The overlap stage reads its own output *)

Section Overlap.

Variable self : TreeSitterChunker.
Variable lines : list string.
Variable chunks : list Chunk.
Import Py PyFacts.

(** The store after the iterations [0 .. k - 1]. *)
Let store (k : nat) : list Chunk :=
  foldl (overlap_step self lines) chunks (seq 0 k).

Lemma store_S k : store (S k) = overlap_step self lines (store k) k.
Proof. unfold store. by rewrite seq_S, foldl_app. Qed.

Lemma store_length k : length (store k) = length chunks.
Proof. apply overlap_fold_length. Qed.

Lemma overlap_step_other S k j :
  j ≠ k → overlap_step self lines S k !! j = S !! j.
Proof.
  intros Hne. unfold overlap_step. destruct (S !! k); [|done].
  by rewrite list_lookup_insert_ne.
Qed.

(** An iteration leaves the later positions as they were given. *)
Lemma store_untouched k : ∀ j, (k ≤ j)%nat → store k !! j = chunks !! j.
Proof.
  induction k as [|k IH]; intros j Hj; [done|].
  rewrite store_S, overlap_step_other by lia. apply IH. lia.
Qed.

(** Once written, a position is not written again. *)
Lemma store_settled k : ∀ j, (j < k)%nat → store k !! j = store (S j) !! j.
Proof.
  induction k as [|k IH]; intros j Hj; [lia|].
  destruct (decide (j = k)) as [->|Hne]; [done|].
  rewrite store_S, overlap_step_other by done. apply IH. lia.
Qed.

Lemma overlap_next_ext S S' i c :
  length S = length S' → S !! (i + 1)%nat = S' !! (i + 1)%nat →
  overlap_next self lines S i c = overlap_next self lines S' i c.
Proof.
  intros Hlen Hnext. unfold overlap_next, len. by rewrite Hlen, Hnext.
Qed.

Lemma overlap_prev_ext S S' i c :
  S !! (i - 1)%nat = S' !! (i - 1)%nat →
  overlap_prev self lines S i c = overlap_prev self lines S' i c.
Proof. intros Hprev. unfold overlap_prev. by rewrite Hprev. Qed.

Lemma overlap_prev_first S S' c :
  overlap_prev self lines S 0 c = overlap_prev self lines S' 0 c.
Proof. reflexivity. Qed.

Lemma store_at k c :
  chunks !! k = Some c →
  store (S k) !! k
  = Some (overlap_next self lines (store k) k
            (overlap_prev self lines (store k) k c)).
Proof.
  intros Hk. rewrite store_S. unfold overlap_step.
  rewrite store_untouched, Hk by lia.
  apply list_lookup_insert_eq. rewrite store_length.
  by apply lookup_lt_Some in Hk.
Qed.

(** What the loop leaves at position [i]: the head slice is cut at the
    start line the next chunk was given, the tail slice at the end line
    the previous chunk has in the result, after its own overlap. *)
Lemma store_final i c :
  chunks !! i = Some c →
  store (length chunks) !! i
  = Some (overlap_next self lines chunks i
            (overlap_prev self lines (store (length chunks)) i c)).
Proof.
  intros Hi. pose proof (lookup_lt_Some _ _ _ Hi) as Hlt.
  rewrite store_settled by done. rewrite (store_at _ _ Hi).
  f_equal.
  rewrite (overlap_next_ext (store i) chunks)
    by (rewrite ?store_length, ?store_untouched; [done..|lia]).
  f_equal.
  destruct i as [|i]; [apply overlap_prev_first|].
  apply overlap_prev_ext.
  replace (S i - 1)%nat with i by lia.
  symmetry. apply store_settled. lia.
Qed.

End Overlap.

Section OverlapResult.

Variable self : TreeSitterChunker.
Import Py PyFacts.

Lemma add_overlap_lookup chunks content i c :
  1 < len chunks →
  chunks !! i = Some c →
  _add_overlap self chunks content !! i
  = Some (overlap_next self (split_nl content) chunks i
            (overlap_prev self (split_nl content)
               (_add_overlap self chunks content) i c)).
Proof.
  intros Hlen Hi. unfold _add_overlap.
  destruct (Z.leb_spec (len chunks) 1) as [?|_]; [lia|].
  by apply store_final.
Qed.

(** The end line the loop reads for the chunk before position [S i] is
    the one it wrote one iteration earlier: the start line of chunk [S i]
    moved forward by the overlap, not the end line chunk [i] came with. *)
Lemma add_overlap_prev_end chunks content i p c :
  1 < len chunks →
  chunks !! i = Some p →
  chunks !! S i = Some c →
  ∃ p', _add_overlap self chunks content !! i = Some p'
        ∧ end_line p'
          = Z.min (len (split_nl content))
                  (start_line c - 1 + overlap_lines_count self).
Proof.
  intros Hlen Hp Hc. eexists. split; [by apply add_overlap_lookup|].
  unfold overlap_next.
  pose proof (lookup_lt_Some _ _ _ Hc) as Hlt.
  destruct (Z.ltb_spec (Z.of_nat i) (len chunks - 1)) as [_|?];
    [|unfold len in *; lia].
  replace (i + 1)%nat with (S i) by lia. by rewrite Hc.
Qed.

End OverlapResult.

(** ** Token estimate, identity *)

(** C7, as the code has it. Without a tokenizer [estimate_tokens]
    returns the length of the text divided by four and rounded down, a
    non-negative integer that depends on the text alone. *)
Theorem estimate_tokens_fallback_floor (self : TokenEstimator)
  (text : string) :
  encoder self = None →
  estimate_tokens self text = Py.str_len text / 4
  ∧ 0 ≤ estimate_tokens self text
  ∧ 4 * estimate_tokens self text ≤ Py.str_len text
  ∧ Py.str_len text < 4 * estimate_tokens self text + 4.
Proof.
  intros Henc. unfold estimate_tokens. rewrite Henc.
  assert (0 ≤ Py.str_len text) by (unfold Py.str_len; lia).
  pose proof (Z.div_mod (Py.str_len text) 4 ltac:(lia)).
  pose proof (Z.mod_pos_bound (Py.str_len text) 4 ltac:(lia)).
  split_and!; lia.
Qed.

(** C3. The fingerprint, computed by [create_code_fingerprint], is the
    hex digest that [create_chunk_id] puts after its prefix ["sha1:"], and
    both are the SHA-1 hex digest of the path, the start line, the end
    line and the text separated by colons. *)
Theorem fingerprint_is_digest_of_chunk_id
  (sha1_hexdigest : string → string) (filepath : string)
  (start_line end_line : Z) (text : string) :
  create_chunk_id sha1_hexdigest filepath start_line end_line text
  = "sha1:" +:+
    create_code_fingerprint sha1_hexdigest filepath start_line end_line text
  ∧ Py.str_drop 5
      (create_chunk_id sha1_hexdigest filepath start_line end_line text)
    = create_code_fingerprint sha1_hexdigest filepath start_line end_line
        text
  ∧ create_code_fingerprint sha1_hexdigest filepath start_line end_line text
    = sha1_hexdigest
        (filepath +:+ ":" +:+ Py.str_of_Z start_line +:+ ":" +:+
         Py.str_of_Z end_line +:+ ":" +:+ text).
Proof. by split_and!. Qed.

(** ** The summary *)

Section Summary.

Import Py PyFacts.

Let first_of (s : string) : string := hd "" (split_nl s).

Lemma first_of_cons c s :
  first_of (String c s)
  = if is_newline c then "" else String c (first_of s).
Proof.
  unfold first_of. simpl. destruct (is_newline c); [done|].
  pose proof (split_nl_nonempty s). by destruct (split_nl s).
Qed.

Lemma rstrip_cons_congr c x y :
  rstrip x = rstrip y → rstrip (String c x) = rstrip (String c y).
Proof. intros H. simpl. by rewrite H. Qed.

Lemma isspace_newline c : is_newline c = true → isspace c = true.
Proof. by intros ->%is_newline_true. Qed.

(** Stripping the end of a text does not change its first line, up to
    the white space at the end of that line. *)
Lemma rstrip_first_of_rstrip s :
  rstrip (first_of (rstrip s)) = rstrip (first_of s).
Proof.
  induction s as [|c s IH]; [done|].
  rewrite (first_of_cons c s). simpl rstrip at 2.
  destruct (rstrip s) as [|c' r] eqn:Hr.
  - assert (rstrip (first_of s) = "") as Hfirst by (by rewrite <- IH).
    destruct (isspace c) eqn:Hc.
    + destruct (is_newline c); [done|]. simpl. by rewrite Hfirst, Hc.
    + destruct (is_newline c) eqn:Hnl;
        [apply isspace_newline in Hnl; congruence|].
      rewrite first_of_cons, Hnl. simpl. by rewrite Hfirst, Hc.
  - rewrite first_of_cons. destruct (is_newline c); [done|].
    by apply rstrip_cons_congr.
Qed.

Lemma rstrip_lstrip_comm s : rstrip (lstrip s) = lstrip (rstrip s).
Proof.
  induction s as [|c s IH]; [done|]. simpl.
  destruct (isspace c) eqn:Hc.
  - rewrite IH. destruct (rstrip s) as [|c' r]; [done|]. simpl. by rewrite Hc.
  - simpl. destruct (rstrip s); simpl; by rewrite Hc.
Qed.

Lemma strip_first_of_rstrip s :
  strip (first_of (rstrip s)) = strip (first_of s).
Proof.
  unfold strip. rewrite !rstrip_lstrip_comm.
  by rewrite rstrip_first_of_rstrip.
Qed.

Lemma strip_space_cons c s : isspace c = true → strip (String c s) = strip s.
Proof. intros Hc. unfold strip. simpl. by rewrite Hc. Qed.

Lemma strip_nonspace_cons c s :
  isspace c = false → strip (String c s) ≠ "".
Proof.
  intros Hc. unfold strip. simpl. rewrite Hc. simpl.
  destruct (rstrip s); by rewrite ?Hc.
Qed.

(** The first line of a text stripped at its start is the first line of
    the text that is not blank. *)
Lemma strip_first_of_lstrip text :
  strip (first_of (lstrip text)) = first_nonblank_line text.
Proof.
  unfold first_nonblank_line.
  induction text as [|c t IH]; [done|]. simpl lstrip.
  destruct (isspace c) eqn:Hc.
  - rewrite IH. simpl split_nl.
    destruct (is_newline c); [done|].
    pose proof (split_nl_nonempty t).
    destruct (split_nl t) as [|l ls]; [done|]. simpl.
    rewrite (strip_space_cons c l Hc).
    destruct (negb _); [by rewrite (strip_space_cons c l Hc)|done].
  - destruct (is_newline c) eqn:Hnl;
      [apply isspace_newline in Hnl; congruence|].
    rewrite first_of_cons, Hnl. unfold first_of. simpl split_nl. rewrite Hnl.
    pose proof (split_nl_nonempty t).
    destruct (split_nl t) as [|l ls]; [done|]. simpl.
    pose proof (strip_nonspace_cons c l Hc) as Hne.
    apply String.eqb_neq in Hne. by rewrite Hne.
Qed.

(** [text.strip().split('\n')[0].strip()] is the first non-blank line
    of [text], stripped. *)
Lemma summary_first_line_nonblank text :
  summary_first_line text = first_nonblank_line text.
Proof.
  rewrite <- strip_first_of_lstrip.
  rewrite <- (strip_first_of_rstrip (lstrip text)).
  unfold summary_first_line, first_of.
  change (rstrip (lstrip text)) with (strip text).
  by destruct (split_nl (strip text)).
Qed.

Lemma substring_0_length n : ∀ s,
  (String.length (String.substring 0 n s) ≤ n)%nat.
Proof.
  induction n as [|n IH]; intros [|c s]; simpl; try lia.
  specialize (IH s). lia.
Qed.

Lemma substring_0_short n : ∀ s,
  (String.length s ≤ n)%nat → String.substring 0 n s = s.
Proof.
  induction n as [|n IH]; intros [|c s] Hlen; simpl in *; try done; try lia.
  rewrite IH; [done|lia].
Qed.

Lemma substring_0_prefix n : ∀ s,
  String.prefix (String.substring 0 n s) s = true.
Proof.
  induction n as [|n IH]; intros [|c s]; simpl; try done.
  rewrite IH. by destruct (ascii_dec c c).
Qed.

Lemma str_in_eq x a l : str_in x (a :: l) = String.eqb x a || str_in x l.
Proof. reflexivity. Qed.

(** C8, as the code has it. [generate_summary] returns the label of the
    kind, a space, and the first non-blank line of the text without the
    white space around it: for the import kinds the whole line, for every
    other kind its first 100 characters followed by ["..."]. The label of
    a kind that is not listed is [node_type.title()] and a colon. *)
Theorem generate_summary_shape (str_title : string → string)
  (text node_type : string) :
  let first_line := first_nonblank_line text in
  let head := str_prefix 100 first_line in
  generate_summary str_title text node_type
  = summary_label str_title node_type +:+ " " +:+
    (if str_in node_type ["import"; "import_statement"]
     then first_line else head +:+ "...")
  ∧ (String.length head ≤ 100)%nat
  ∧ String.prefix head first_line = true
  ∧ ((String.length first_line ≤ 100)%nat → head = first_line).
Proof.
  intros first_line head. split_and!.
  - unfold generate_summary, summary_label.
    rewrite summary_first_line_nonblank. fold first_line. fold head.
    rewrite !str_in_eq. simpl str_in. rewrite !orb_false_r.
    destruct (String.eqb_spec node_type "function") as [->|_]; [done|].
    destruct (String.eqb_spec node_type "method") as [->|_]; [done|].
    destruct (String.eqb_spec node_type "class") as [->|_]; [done|].
    simpl orb.
    destruct (String.eqb node_type "import"
              || String.eqb node_type "import_statement"); [done|].
    by rewrite !str_app_assoc.
  - apply substring_0_length.
  - apply substring_0_prefix.
  - apply substring_0_short.
Qed.

End Summary.

(** ** The model on concrete inputs *)

Section Runs.

Import Py Scenario.

(** SHA-1 on the test vectors of FIPS 180, one and two blocks. *)
Example sha1_abc :
  Sha1.hexdigest "abc" = "a9993e364706816aba3e25717850c26c9cd0d89d".
Proof. vm_compute. reflexivity. Qed.

Example sha1_two_blocks :
  Sha1.hexdigest "abcdbcdecdefdefgefghfghighijhijkijkljklmklmnlmnomnopnopq"
  = "84983e441c3bd26ebaae4aa1f95129e5e54670f1".
Proof. vm_compute. reflexivity. Qed.

(** The identifier of the test suite: 45 characters. *)
Example chunk_id_of_test :
  create_chunk_id Sha1.hexdigest "test.py" 1 10 "print('hello')"
  = "sha1:a04faf36836ecec6c4abdad3bd3b6933a4eecc96".
Proof. vm_compute. reflexivity. Qed.

Example language_of_suffix :
  _get_language Posix.suffix_lower "/repo/src/Main.JAVA" = "java"
  ∧ _get_language Posix.suffix_lower "notes.txt" = "unknown".
Proof. vm_compute. done. Qed.

(** Two chunks of five tokens are merged into one (section 8 of the
    specification). *)
Example merge_two_small :
  _merge_small_chunks (chunker 10000 50 1000)
    [block 1 1 1 "aaaaaaaaaaaaaaaaaaaa"; block 2 2 2 "bbbbbbbbbbbbbbbbbbbb"]
  = [merged_chunk (block 1 1 1 "aaaaaaaaaaaaaaaaaaaa")
                  (block 2 2 2 "bbbbbbbbbbbbbbbbbbbb")].
Proof. vm_compute. reflexivity. Qed.

(** C2, witness: the merge of the first two of three small chunks. *)
Lemma merge_small_chunks_output_origin_witness :
  merged_chunk (block 1 1 1 "aaaa") (block 2 2 2 "bbbb")
    ∈ _merge_small_chunks (chunker 10000 50 1000) three_small
  ∧ normalizer_output_origin (chunker 10000 50 1000) three_small
      (merged_chunk (block 1 1 1 "aaaa") (block 2 2 2 "bbbb")).
Proof.
  assert (merged_chunk (block 1 1 1 "aaaa") (block 2 2 2 "bbbb")
            ∈ _merge_small_chunks (chunker 10000 50 1000) three_small) as Hin.
  { vm_compute. apply list_elem_of_here. }
  split; [exact Hin|].
  exact (merge_small_chunks_output_origin (chunker 10000 50 1000)
           three_small _ Hin).
Defined.

(** C2, counterexample: of three chunks of one token each the first two
    are merged into a chunk of two tokens; it is under [min_tokens = 50],
    it is not the last chunk, and it would fit with its successor within
    [max_tokens = 10000]. *)
Lemma merged_chunk_stays_under_min :
  ¬ normalizer_floor (chunker 10000 50 1000)
      (_merge_small_chunks (chunker 10000 50 1000) three_small).
Proof.
  intros Hfloor.
  destruct (Hfloor 0%nat
              (merged_chunk (block 1 1 1 "aaaa") (block 2 2 2 "bbbb"))
              eq_refl) as [Hmin|[Hlast|(d & Hd & Hmax)]].
  - vm_compute in Hmin. by apply Hmin.
  - vm_compute in Hlast. discriminate.
  - vm_compute in Hd. injection Hd as <-. vm_compute in Hmax. discriminate.
Qed.


(** An empty line between two lines that fill a chunk each is a chunk
    of its own, with an empty text. *)
Example fallback_empty_line_chunk :
  _fallback_chunking (chunker 0 0 0) ("aaaa" +:+ NL +:+ NL +:+ "bbbb") "f.py"
  = [block 1 1 1 "aaaa"; block 2 2 2 ""; block 3 3 3 "bbbb"].
Proof. vm_compute. reflexivity. Qed.

(** A file that cannot be read is marked failed. *)
Lemma unreadable_file_marked_failed :
  (∃ w', repo_process_file default_chunker Sha1.hexdigest ascii_title
           Posix.suffix_lower unreadable true "/repo/a.py" "a.py" fresh
         = (Returned (), w')
         ∧ marked_failed fresh w')
  ∧ (∀ rest,
       ∃ w'', process_files default_chunker Sha1.hexdigest ascii_title
                Posix.suffix_lower
                (chunk_file default_chunker Posix.suffix_lower)
                unreadable true (("/repo/a.py", "a.py") :: rest) fresh
              = (Returned (), w'')
              ∧ total_files (stats w'')
                = total_files (stats fresh) + 1 + len rest).
Proof.
  exact (process_file_marks_failed default_chunker Sha1.hexdigest ascii_title
           Posix.suffix_lower (chunk_file default_chunker Posix.suffix_lower)
           unreadable true "/repo/a.py" "a.py" fresh (or_introl eq_refl)).
Defined.

(** With a chunker that returns no chunk the [else] branch of
    [process_file] is taken: the file is marked failed and nothing is
    written. *)
Example file_without_chunks_marked_failed :
  ∃ w', process_file default_chunker Sha1.hexdigest ascii_title
          Posix.suffix_lower (λ _ _, []) empty_files true
          "/repo/empty.py" "empty.py" fresh
        = (Returned (), w')
        ∧ marked_failed fresh w'
        ∧ failed_files (stats w') = 1
        ∧ parsed_files (stats w') = 0
        ∧ chunks_jsonl w' = [].
Proof. eexists. split; [vm_compute; reflexivity|]. by split_and!. Qed.

(** C5. An empty file is not marked failed, where the claim and the
    [else] branch of [process_file] ("No chunks generated") expect a file
    without spans to be: [chunk_file] returns the chunk of line 1 with an
    empty text for it, so the file is counted as parsed, not as failed,
    and one record, with an empty text, is written. *)
Lemma empty_file_counted_parsed :
  ∃ w' d,
    repo_process_file default_chunker Sha1.hexdigest ascii_title
      Posix.suffix_lower empty_files true "/repo/empty.py" "empty.py" fresh
    = (Returned (), w')
    ∧ ¬ marked_failed fresh w'
    ∧ parsed_files (stats w') = 1
    ∧ failed_files (stats w') = 0
    ∧ total_chunks (stats w') = 1
    ∧ chunks_jsonl w' = [d]
    ∧ cd_text d = "" ∧ cd_start_line d = 1 ∧ cd_end_line d = 1
    ∧ cd_id d = "sha1:5184e8f72298f7be0e70ce26ac674ba8c7ea1a7c".
Proof.
  eexists. eexists. split; [vm_compute; reflexivity|].
  split_and!; try reflexivity.
  intros [_ Hjsonl]. discriminate.
Qed.

(** C7, witness. *)
Lemma estimate_tokens_fallback_floor_witness :
  estimate_tokens heuristic "Hello world, this is a test."
  = str_len "Hello world, this is a test." / 4
  ∧ 0 ≤ estimate_tokens heuristic "Hello world, this is a test."
  ∧ 4 * estimate_tokens heuristic "Hello world, this is a test."
    ≤ str_len "Hello world, this is a test."
  ∧ str_len "Hello world, this is a test."
    < 4 * estimate_tokens heuristic "Hello world, this is a test." + 4.
Proof.
  exact (estimate_tokens_fallback_floor heuristic
           "Hello world, this is a test." eq_refl).
Defined.

(** C7, counterexample: a text of one character is estimated at zero
    tokens, where the ceiling of 1/4 is one. *)
Lemma estimate_tokens_not_ceiling :
  estimate_tokens heuristic "a" = 0
  ∧ ceil_div4 (str_len "a") = 1
  ∧ estimate_tokens heuristic "a" ≠ ceil_div4 (str_len "a").
Proof. by vm_compute. Qed.

(** C8, counterexample: for an import the line is not cut to 100
    characters; for the other kinds the cut line is followed by three
    dots; a first line of white space is passed over and the line found
    is stripped; the label of an unlisted kind is its title case. *)
Lemma summary_not_truncated_for_import :
  generate_summary ascii_title long_line "import"
  ≠ summary_as_specified ascii_title long_line "import"
  ∧ generate_summary ascii_title long_line "import"
    = "Import: " +:+ long_line
  ∧ String.length long_line = 101%nat
  ∧ generate_summary ascii_title "def f():" "function"
    = "Function: def f():..."
  ∧ generate_summary ascii_title "def f():" "function"
    ≠ summary_as_specified ascii_title "def f():" "function"
  ∧ generate_summary ascii_title
      ("  " +:+ NL +:+ "  class A:  " +:+ NL +:+ "    pass") "class"
    = "Class: class A:..."
  ∧ generate_summary ascii_title "x = 1" "expression_statement"
    = "Expression_Statement: x = 1...".
Proof. by vm_compute. Qed.

(** C6, on a failing input. Four lines are cut into the chunks of lines
    1-2 and 3-4 and one line of overlap is asked for. The second chunk
    should start with line 2, the last line of the first chunk; the loop
    reads the end line it has just moved to 3 and prepends line 3, the
    chunk's own first line, and sets [start_line] to 3. *)
Theorem add_overlap_reads_overlapped_end :
  chunk_file (chunker 2 0 4) Posix.suffix_lower "notes.txt" four_lines
  = _add_overlap (chunker 2 0 4)
      [block 1 1 2 ("aaaa" +:+ NL +:+ "bbbb");
       block 2 3 4 ("cccc" +:+ NL +:+ "dddd")] four_lines
  ∧ _add_overlap (chunker 2 0 4)
      [block 1 1 2 ("aaaa" +:+ NL +:+ "bbbb");
       block 2 3 4 ("cccc" +:+ NL +:+ "dddd")] four_lines
    = [block 1 1 3 ("aaaa" +:+ NL +:+ "bbbb" +:+ NL +:+ "cccc");
       block 2 3 4 ("cccc" +:+ NL +:+ "cccc" +:+ NL +:+ "dddd")]
  ∧ add_overlap_original (chunker 2 0 4)
      [block 1 1 2 ("aaaa" +:+ NL +:+ "bbbb");
       block 2 3 4 ("cccc" +:+ NL +:+ "dddd")] four_lines
    = [block 1 1 3 ("aaaa" +:+ NL +:+ "bbbb" +:+ NL +:+ "cccc");
       block 2 2 4 ("bbbb" +:+ NL +:+ "cccc" +:+ NL +:+ "dddd")].
Proof. by vm_compute. Qed.

End Runs.

(** * Further properties of the code *)

(** ** The fallback segmenter packs lines greedily *)

Section Packing.

Variable self : TreeSitterChunker.
Import Py PyFacts.

Lemma tokens_of_nonneg t : 0 ≤ tokens_of self t.
Proof.
  unfold tokens_of, estimate_tokens.
  destruct (encoder (token_estimator self)); unfold len, str_len.
  - lia.
  - apply Z.div_pos; lia.
Qed.

Lemma sum_tokens_app ls1 ls2 :
  sum_tokens self (ls1 ++ ls2) = sum_tokens self ls1 + sum_tokens self ls2.
Proof.
  induction ls1 as [|l ls1 IH]; simpl; [done|]. rewrite IH. lia.
Qed.

Lemma sum_tokens_nonneg ls : 0 ≤ sum_tokens self ls.
Proof.
  induction ls as [|l ls IH]; simpl; [done|].
  pose proof (tokens_of_nonneg l). lia.
Qed.

Lemma blocks_of_length segs : ∀ n from,
  length (blocks_of n from segs) = length segs.
Proof. induction segs as [|seg segs IH]; intros; simpl; [done|]. by rewrite IH. Qed.

Lemma len_concat_cons (seg : list string) segs :
  len (concat (seg :: segs)) = len seg + len (concat segs).
Proof. simpl. apply len_app. Qed.

Lemma blocks_of_app segs1 segs2 : ∀ n from,
  blocks_of n from (segs1 ++ segs2)
  = blocks_of n from segs1
    ++ blocks_of (n + len segs1) (from + len (concat segs1)) segs2.
Proof.
  induction segs1 as [|seg segs1 IH]; intros n from.
  - simpl. unfold len. simpl. f_equal; lia.
  - simpl app. simpl blocks_of. rewrite IH. f_equal.
    assert (len (seg :: segs1) = 1 + len segs1) as ->
      by (unfold len; simpl length; lia).
    rewrite len_app. by rewrite !Z.add_assoc.
Qed.

Lemma greedy_chain_extend segs cur more :
  cur ≠ [] →
  greedy_chain self (segs ++ [cur]) →
  greedy_chain self (segs ++ [cur ++ more]).
Proof.
  intros Hcur. induction segs as [|s1 segs IH]; [done|].
  destruct segs as [|s2 segs].
  - simpl. intros [Hg _]. split; [|done].
    intros l Hl. apply Hg. by destruct cur.
  - simpl app in *. intros [Hg Hrest]. split; [done|]. by apply IH.
Qed.

Lemma greedy_chain_close segs cur line :
  greedy_chain self (segs ++ [cur]) →
  max_tokens self < sum_tokens self cur + tokens_of self line →
  greedy_chain self ((segs ++ [cur]) ++ [[line]]).
Proof.
  intros Hg Hline. induction segs as [|s1 segs IH].
  - simpl. split; [|done]. by intros l [= <-].
  - destruct segs as [|s2 segs].
    + simpl in *. destruct Hg as [Hg _]. split; [done|].
      split; [|done]. by intros l [= <-].
    + simpl app in *. destruct Hg as [Hg Hrest]. split; [done|].
      by apply IH.
Qed.

(** The invariant of the loop, once the accumulator holds a line. *)
Lemma fallback_loop_packing rest : ∀ i st segs,
  fb_current_chunk st ≠ [] →
  fb_chunks st = blocks_of 1 1 segs →
  i = 1 + len (concat segs) + len (fb_current_chunk st) →
  Forall (λ seg, seg ≠ []) segs →
  Forall (within_ceiling self) (segs ++ [fb_current_chunk st]) →
  greedy_chain self (segs ++ [fb_current_chunk st]) →
  fb_current_tokens st = sum_tokens self (fb_current_chunk st) →
  ∃ segs',
    concat segs' ++ fb_current_chunk (fallback_loop self rest i st)
      = concat segs ++ fb_current_chunk st ++ rest
    ∧ fb_current_chunk (fallback_loop self rest i st) ≠ []
    ∧ fb_chunks (fallback_loop self rest i st) = blocks_of 1 1 segs'
    ∧ Forall (λ seg, seg ≠ []) segs'
    ∧ Forall (within_ceiling self)
        (segs' ++ [fb_current_chunk (fallback_loop self rest i st)])
    ∧ greedy_chain self
        (segs' ++ [fb_current_chunk (fallback_loop self rest i st)]).
Proof.
  induction rest as [|line rest IH];
    intros i st segs Hcur Hchunks Hi Hne Hceil Hgreedy Htok.
  - exists segs. rewrite app_nil_r. simpl. by split_and!.
  - simpl fallback_loop. unfold fallback_step.
    assert (truthy (fb_current_chunk st) = true) as ->
      by (by destruct (fb_current_chunk st)).
    rewrite andb_true_r.
    destruct (Z.ltb_spec (max_tokens self)
                (fb_current_tokens st + tokens_of self line)) as [Hover|Hfit].
    + lazymatch goal with
      | |- context [fallback_loop self rest (i + 1) ?s] =>
          destruct (IH (i + 1) s (segs ++ [fb_current_chunk st]))
            as (segs' & Heq & Hcur' & Hchunks' & Hne' & Hceil' & Hgreedy')
      end; simpl.
      * done.
      * rewrite Hchunks, blocks_of_app. simpl. f_equal. f_equal.
        f_equal; unfold len in *; rewrite ?blocks_of_length; lia.
      * rewrite concat_app, len_app. simpl concat. rewrite app_nil_r.
        change (len [line]) with 1. lia.
      * apply Forall_app. split; [done|]. by apply Forall_singleton.
      * apply Forall_app. split; [done|]. apply Forall_singleton.
        by right.
      * apply greedy_chain_close; [done|]. by rewrite <- Htok.
      * unfold sum_tokens. simpl. lia.
      * exists segs'. split_and!; try done.
        rewrite Heq, concat_app. simpl. by rewrite app_nil_r, <- app_assoc.
    + lazymatch goal with
      | |- context [fallback_loop self rest (i + 1) ?s] =>
          destruct (IH (i + 1) s segs)
            as (segs' & Heq & Hcur' & Hchunks' & Hne' & Hceil' & Hgreedy')
      end; simpl.
      * by destruct (fb_current_chunk st).
      * done.
      * rewrite len_app. change (len [line]) with 1. lia.
      * done.
      * apply Forall_app in Hceil as [Hsegs _].
        apply Forall_app. split; [done|]. apply Forall_singleton.
        left. rewrite sum_tokens_app. simpl. lia.
      * by apply greedy_chain_extend.
      * rewrite sum_tokens_app. simpl. lia.
      * exists segs'. split_and!; try done.
        simpl in Heq. rewrite Heq. f_equal. by rewrite <- app_assoc.
Qed.

(** [_fallback_chunking] cuts the lines into consecutive non-empty
    groups, one chunk a group, numbered from 1; a group is within the
    ceiling or a single line, and it was closed because the next line
    did not fit. *)
Lemma fallback_chunking_partition content filepath :
  ∃ segs,
    concat segs = split_nl content
    ∧ _fallback_chunking self content filepath = blocks_of 1 1 segs
    ∧ Forall (λ seg, seg ≠ []) segs
    ∧ Forall (within_ceiling self) segs
    ∧ greedy_chain self segs.
Proof.
  rewrite fallback_chunking_unfold.
  pose proof (split_nl_nonempty content) as Hlines.
  destruct (split_nl content) as [|l0 rest] eqn:Hsplit; [done|].
  assert (fallback_step self fallback_init 1 l0
          = {| fb_chunks := []; fb_current_chunk := [l0];
               fb_current_tokens := 0 + tokens_of self l0 |}) as Hstep.
  { unfold fallback_step. simpl. by rewrite andb_false_r. }
  simpl fallback_loop. rewrite Hstep.
  lazymatch goal with
  | |- context [fallback_loop self rest ?i ?s] =>
      destruct (fallback_loop_packing rest i s [])
        as (segs & Heq & Hcur & Hchunks & Hne & Hceil & Hgreedy);
      [..|set (st := fallback_loop self rest i s) in *]
  end; simpl; try done.
  - apply Forall_singleton. by right.
  - lia.
  - simpl in Heq.
    exists (segs ++ [fb_current_chunk st]). split_and!; try done.
    + rewrite concat_app. simpl. by rewrite app_nil_r.
    + rewrite Hchunks, blocks_of_app. simpl. f_equal. f_equal.
      assert (len (l0 :: rest) = len (concat segs) + len (fb_current_chunk st))
        as Hlen by (by rewrite <- Heq, len_app).
      f_equal; unfold len in *; rewrite ?blocks_of_length; lia.
    + apply Forall_app. split; [done|]. by apply Forall_singleton.
Qed.

End Packing.

Section PackingResults.

Variable self : TreeSitterChunker.
Import Py PyFacts.

Lemma blocks_of_lookup segs : ∀ n from (i : nat) c,
  blocks_of n from segs !! i = Some c →
  ∃ seg,
    segs !! i = Some seg
    ∧ c = block (n + Z.of_nat i)
            (from + len (concat (take i segs)))
            (from + len (concat (take i segs)) + len seg - 1)
            (join_nl seg).
Proof.
  induction segs as [|seg0 segs IH]; intros n from i c Hc; [done|].
  destruct i as [|i]; simpl in Hc.
  - injection Hc as <-. exists seg0. split; [done|].
    simpl take. simpl concat. change (len (@nil string)) with 0.
    f_equal; lia.
  - destruct (IH _ _ _ _ Hc) as (seg & Hseg & ->).
    exists seg. split; [done|]. simpl take. simpl concat.
    rewrite len_app. f_equal; lia.
Qed.

Lemma concat_lookup_middle (segs : list (list string)) i seg :
  segs !! i = Some seg →
  concat segs = concat (take i segs) ++ seg ++ concat (drop (S i) segs).
Proof.
  intros Hi. rewrite <- (take_drop_middle segs i seg Hi) at 1.
  by rewrite concat_app.
Qed.

Lemma slice_of_segment (segs : list (list string)) i seg :
  segs !! i = Some seg →
  slice (concat segs) (len (concat (take i segs)))
        (len (concat (take i segs)) + len seg) = seg.
Proof.
  intros Hi. rewrite (concat_lookup_middle segs i seg Hi) at 1.
  apply slice_middle.
Qed.

Lemma greedy_chain_lookup segs : ∀ (i : nat) s1 s2 l,
  greedy_chain self segs →
  segs !! i = Some s1 → segs !! S i = Some s2 → head s2 = Some l →
  max_tokens self < sum_tokens self s1 + tokens_of self l.
Proof.
  induction segs as [|s segs IH]; intros i s1 s2 l Hg H1 H2 Hl; [done|].
  destruct segs as [|s' segs]; [by destruct i|].
  destruct Hg as [Hhere Hrest].
  destruct i as [|i].
  - simpl in H1, H2. injection H1 as <-. injection H2 as <-. by apply Hhere.
  - simpl in H1. by eapply (IH i).
Qed.

(** The chunk at position [i] of a partition, read as a range of the
    lines. *)
Lemma partition_chunk_range segs (i : nat) c :
  blocks_of 1 1 segs !! i = Some c →
  ∃ seg,
    segs !! i = Some seg
    ∧ c = block (1 + Z.of_nat i) (start_line c) (end_line c) (join_nl seg)
    ∧ start_line c = 1 + len (concat (take i segs))
    ∧ end_line c = len (concat (take i segs)) + len seg
    ∧ slice (concat segs) (start_line c - 1) (end_line c) = seg.
Proof.
  intros Hc. destruct (blocks_of_lookup _ _ _ _ _ Hc) as (seg & Hseg & ->).
  exists seg. simpl. split_and!; try done; try lia.
  replace (1 + len (concat (take i segs)) - 1)
    with (len (concat (take i segs))) by lia.
  replace (1 + len (concat (take i segs)) + len seg - 1)
    with (len (concat (take i segs)) + len seg) by lia.
  by apply slice_of_segment.
Qed.

(** X1. The chunks of [_fallback_chunking] are numbered in order: the
    chunk at position [i] is named [block_<i+1>], has type [block],
    capture name [fallback] and the flag [parser_fallback]. *)
Theorem fallback_chunks_numbered (content filepath : string) (i : nat)
  (c : Chunk) :
  _fallback_chunking self content filepath !! i = Some c →
  name c = "block_" +:+ str_of_Z (Z.of_nat i + 1)
  ∧ type_ c = "block"
  ∧ capture_name c = "fallback"
  ∧ parser_fallback c = Some true.
Proof.
  destruct (fallback_chunking_partition self content filepath)
    as (segs & _ & -> & _).
  intros Hc. destruct (partition_chunk_range _ _ _ Hc) as (seg & _ & -> & _).
  simpl. split_and!; try done. by rewrite Z.add_comm.
Qed.

(** X2. The ceiling is soft only for single lines: the per-line
    estimates of the lines of a chunk of [_fallback_chunking] add up to at
    most [max_tokens], unless the chunk is one line. *)
Theorem fallback_chunk_within_ceiling (content filepath : string)
  (c : Chunk) :
  c ∈ _fallback_chunking self content filepath →
  sum_tokens self
    (slice (split_nl content) (start_line c - 1) (end_line c))
  ≤ max_tokens self
  ∨ start_line c = end_line c.
Proof.
  destruct (fallback_chunking_partition self content filepath)
    as (segs & <- & -> & _ & Hceil & _).
  intros [i Hc]%list_elem_of_lookup.
  destruct (partition_chunk_range _ _ _ Hc)
    as (seg & Hseg & _ & Hs & He & ->).
  rewrite Forall_lookup in Hceil.
  destruct (Hceil _ _ Hseg) as [Hsum|Hone]; [by left|right].
  rewrite Hs, He. unfold len at 3. lia.
Qed.

(** X3. Packing is greedy: a chunk of [_fallback_chunking] that is
    followed by another one was closed because the line after it did not
    fit, that is, its per-line estimates and the estimate of the next
    line together exceed [max_tokens]. *)
Theorem fallback_chunk_closed_when_full (content filepath : string)
  (i : nat) (c d : Chunk) :
  _fallback_chunking self content filepath !! i = Some c →
  _fallback_chunking self content filepath !! S i = Some d →
  ∃ next_line,
    split_nl content !! Z.to_nat (end_line c) = Some next_line
    ∧ max_tokens self
      < sum_tokens self
          (slice (split_nl content) (start_line c - 1) (end_line c))
        + tokens_of self next_line.
Proof.
  destruct (fallback_chunking_partition self content filepath)
    as (segs & <- & -> & Hne & _ & Hgreedy).
  intros Hc Hd.
  destruct (partition_chunk_range _ _ _ Hc)
    as (seg & Hseg & _ & Hs & He & ->).
  destruct (partition_chunk_range _ _ _ Hd) as (seg' & Hseg' & _).
  rewrite Forall_lookup in Hne. pose proof (Hne _ _ Hseg') as Hne'.
  destruct seg' as [|l seg']; [done|].
  exists l. split; [|by eapply greedy_chain_lookup].
  rewrite (concat_lookup_middle segs (S i) _ Hseg').
  rewrite (take_S_r segs i seg Hseg), concat_app. simpl concat.
  rewrite app_nil_r.
  rewrite lookup_app_r; rewrite He, <- len_app; unfold len;
    rewrite Nat2Z.id; [|lia].
  by rewrite Nat.sub_diag.
Qed.

(** A text whose lines fit together is one group. *)
Lemma partition_single segs :
  sum_tokens self (concat segs) ≤ max_tokens self →
  Forall (λ seg, seg ≠ []) segs →
  greedy_chain self segs →
  concat segs ≠ [] →
  segs = [concat segs].
Proof.
  intros Hfit Hne Hgreedy Hlines.
  destruct segs as [|s1 [|s2 segs]]; [done| |].
  - simpl. by rewrite app_nil_r.
  - exfalso. destruct Hgreedy as [Hhere _].
    apply Forall_cons in Hne as [_ [Hs2 _]%Forall_cons].
    destruct s2 as [|l s2]; [done|].
    specialize (Hhere l eq_refl).
    simpl concat in Hfit. rewrite sum_tokens_app in Hfit.
    change (sum_tokens self (l :: s2 ++ concat segs))
      with (tokens_of self l + sum_tokens self (s2 ++ concat segs)) in Hfit.
    rewrite sum_tokens_app in Hfit.
    pose proof (sum_tokens_nonneg self s2).
    pose proof (sum_tokens_nonneg self (concat segs)). lia.
Qed.

(** X4. A content whose per-line estimates add up to at most
    [max_tokens] is one chunk: [_fallback_chunking] returns the single
    chunk [block_1] of lines 1 to the last with the content as text, and
    [chunk_file] returns it unchanged when no structural node is found
    (nothing to merge, no overlap). *)
Theorem small_file_is_one_chunk (suffix_lower : string → string)
  (content filepath : string) :
  sum_tokens self (split_nl content) ≤ max_tokens self →
  _fallback_chunking self content filepath
  = [block 1 1 (len (split_nl content)) content]
  ∧ (structural_nodes self (_get_language suffix_lower filepath) content
     = [] →
     chunk_file self suffix_lower filepath content
     = [block 1 1 (len (split_nl content)) content]).
Proof.
  intros Hfit.
  assert (_fallback_chunking self content filepath
          = [block 1 1 (len (split_nl content)) content]) as Hone.
  { destruct (fallback_chunking_partition self content filepath)
      as (segs & Hlines & -> & Hne & _ & Hgreedy).
    rewrite <- Hlines in Hfit.
    rewrite (partition_single segs Hfit Hne Hgreedy)
      by (rewrite Hlines; apply split_nl_nonempty).
    rewrite Hlines. simpl. rewrite join_split_nl.
    do 2 f_equal. lia. }
  split; [done|]. intros Hnodes.
  unfold chunk_file. rewrite Hnodes. simpl truthy. cbv iota.
  rewrite Hone, merge_small_chunks_suffix. reflexivity.
Qed.

Lemma partition_length (segs : list (list string)) :
  Forall (λ seg, seg ≠ []) segs → (length segs ≤ length (concat segs))%nat.
Proof.
  induction 1 as [|seg segs Hseg _ IH]; simpl; [done|].
  rewrite length_app. destruct seg; [done|]. simpl. lia.
Qed.

Lemma fallback_chunking_count content filepath :
  (1 ≤ length (_fallback_chunking self content filepath)
   ≤ length (split_nl content))%nat.
Proof.
  pose proof (fallback_chunking_nonempty self content filepath) as Hne.
  destruct (fallback_chunking_partition self content filepath)
    as (segs & <- & Heq & Hsegs & _).
  rewrite Heq in *. rewrite blocks_of_length.
  split; [|by apply partition_length].
  destruct segs; [done|]. simpl. lia.
Qed.

End PackingResults.

(** ** The normalizer: sizes *)

Section NormalizerSizes.

Variable self : TreeSitterChunker.
Import Py PyFacts.

Lemma merge_suffix_length chunks :
  (length (merge_suffix self chunks) ≤ length chunks
   ∧ length chunks ≤ 2 * length (merge_suffix self chunks))%nat.
Proof.
  induction chunks as [| c | a b rest Hc IH | a b rest Hc IH]
    using (merge_cases self); [simpl; lia..| |].
  - rewrite merge_suffix_merge by done. simpl. lia.
  - rewrite merge_suffix_pass by done. simpl in *. lia.
Qed.

(** X5. [_merge_small_chunks] never adds a chunk and at most halves
    their number: a chunk is merged with one neighbour at most. *)
Theorem merge_small_chunks_length (chunks : list Chunk) :
  (length (_merge_small_chunks self chunks) ≤ length chunks
   ∧ length chunks ≤ 2 * length (_merge_small_chunks self chunks))%nat.
Proof. rewrite merge_small_chunks_suffix. apply merge_suffix_length. Qed.

Lemma merge_suffix_identity chunks :
  Forall (λ c, min_tokens self ≤ tokens_of self (text c)) chunks →
  merge_suffix self chunks = chunks.
Proof.
  induction chunks as [| c | a b rest Hc IH | a b rest Hc IH]
    using (merge_cases self); intros Hall; [done..| |].
  - apply Forall_cons in Hall as [Ha _].
    apply andb_prop in Hc as [Hmin _]. apply Z.ltb_lt in Hmin. lia.
  - rewrite merge_suffix_pass by done. f_equal. apply IH.
    by apply Forall_cons in Hall as [_ ?].
Qed.

(** X6. [_merge_small_chunks] returns its input unchanged when no chunk
    is under [min_tokens]; in particular when [min_tokens] is zero or
    negative, since an estimate is never negative. *)
Theorem merge_small_chunks_identity (chunks : list Chunk) :
  min_tokens self ≤ 0
  ∨ Forall (λ c, min_tokens self ≤ tokens_of self (text c)) chunks →
  _merge_small_chunks self chunks = chunks.
Proof.
  intros Hmin. rewrite merge_small_chunks_suffix.
  apply merge_suffix_identity. destruct Hmin as [Hmin|Hall]; [|done].
  apply Forall_forall. intros c _.
  pose proof (tokens_of_nonneg self (text c)). lia.
Qed.

Lemma heuristic_tokens t :
  encoder (token_estimator self) = None →
  tokens_of self t = str_len t / 4.
Proof. intros H. unfold tokens_of, estimate_tokens. by rewrite H. Qed.

Lemma str_len_app s t : str_len (s +:+ t) = str_len s + str_len t.
Proof. unfold str_len. rewrite str_length_app. lia. Qed.

(** Without a tokenizer the estimate of a merged chunk is the sum of the
    two estimates, or one more. *)
Lemma merged_chunk_tokens a b :
  encoder (token_estimator self) = None →
  tokens_of self (text a) + tokens_of self (text b)
  ≤ tokens_of self (text (merged_chunk a b))
  ∧ tokens_of self (text (merged_chunk a b))
    ≤ tokens_of self (text a) + tokens_of self (text b) + 1.
Proof.
  intros Henc. rewrite !heuristic_tokens by done. simpl text.
  rewrite !str_len_app. change (str_len NL) with 1.
  assert (0 ≤ str_len (text a)) by (unfold str_len; lia).
  assert (0 ≤ str_len (text b)) by (unfold str_len; lia).
  Z.div_mod_to_equations. lia.
Qed.

(** X7. Without a tokenizer a merge overshoots the ceiling by one token
    at most: when every input chunk is estimated within [max_tokens],
    every output chunk of [_merge_small_chunks] is estimated within
    [max_tokens + 1]. The merge test adds the two estimates, and the
    estimate of the joined text can be one more. *)
Theorem merge_small_chunks_ceiling (chunks : list Chunk) (c : Chunk) :
  encoder (token_estimator self) = None →
  Forall (λ x, tokens_of self (text x) ≤ max_tokens self) chunks →
  c ∈ _merge_small_chunks self chunks →
  tokens_of self (text c) ≤ max_tokens self + 1.
Proof.
  intros Henc Hall Hc. rewrite merge_small_chunks_suffix in Hc.
  rewrite Forall_lookup in Hall.
  destruct (merge_suffix_origin self chunks c Hc)
    as [(i & Hi & _)|(i & a & b & Ha & Hb & -> & _ & Hsum)].
  - specialize (Hall _ _ Hi). simpl in Hall. lia.
  - pose proof (merged_chunk_tokens a b Henc). lia.
Qed.

(** Merging keeps the flag [parser_fallback], and an output chunk is of
    type [merged] or is an input chunk. *)
Lemma merge_small_chunks_fallback_flag chunks c :
  Forall (λ x, parser_fallback x = Some true) chunks →
  c ∈ _merge_small_chunks self chunks →
  parser_fallback c = Some true
  ∧ (c ∈ chunks
     ∨ type_ c = "merged" ∧ capture_name c = "merged").
Proof.
  intros Hall Hc. rewrite merge_small_chunks_suffix in Hc.
  rewrite Forall_lookup in Hall.
  destruct (merge_suffix_origin self chunks c Hc)
    as [(i & Hi & _)|(i & a & b & Ha & Hb & -> & _)].
  - split; [by eapply Hall|]. left. by eapply list_elem_of_lookup_2.
  - split; [|by right]. simpl. unfold get_parser_fallback.
    by rewrite (Hall _ _ Ha).
Qed.

End NormalizerSizes.

(** ** The estimate of a chunk and the estimates of its lines *)

Section ChunkEstimate.

Variable self : TreeSitterChunker.
Import Py PyFacts.

(** Without a tokenizer: four times the total of the lines is at most
    the length of their join, which stays under four times the total
    plus the number of lines. *)
Lemma join_nl_length_bounds seg :
  encoder (token_estimator self) = None →
  seg ≠ [] →
  4 * sum_tokens self seg ≤ str_len (join_nl seg)
  ∧ str_len (join_nl seg) ≤ 4 * sum_tokens self seg + 4 * len seg - 1.
Proof.
  intros Henc Hseg. induction seg as [|l seg IH]; [done|].
  assert (4 * tokens_of self l ≤ str_len l
          ∧ str_len l ≤ 4 * tokens_of self l + 3) as [Hlo Hhi].
  { rewrite heuristic_tokens by done.
    assert (0 ≤ str_len l) by (unfold str_len; lia).
    Z.div_mod_to_equations. lia. }
  assert (len (l :: seg) = 1 + len seg) as ->
    by (unfold len; simpl length; lia).
  change (sum_tokens self (l :: seg))
    with (tokens_of self l + sum_tokens self seg).
  destruct seg as [|l' seg].
  - rewrite join_nl_singleton. change (sum_tokens self []) with 0.
    change (len (@nil string)) with 0. lia.
  - rewrite join_nl_cons by done. rewrite !str_len_app.
    change (str_len NL) with 1.
    destruct IH as [IHlo IHhi]; [done|]. lia.
Qed.

(** X25. Without a tokenizer the size of a fallback chunk can pass the
    ceiling although its lines fit: the estimate of the chunk's text is
    at least the total of the per-line estimates that the packing
    counts, and at most that total plus the number of lines less one,
    the newlines between the lines not being counted by the packing. *)
Theorem fallback_chunk_estimate (content filepath : string) (c : Chunk) :
  encoder (token_estimator self) = None →
  c ∈ _fallback_chunking self content filepath →
  sum_tokens self
    (slice (split_nl content) (start_line c - 1) (end_line c))
  ≤ tokens_of self (text c)
  ∧ tokens_of self (text c)
    ≤ sum_tokens self
        (slice (split_nl content) (start_line c - 1) (end_line c))
      + (end_line c - start_line c).
Proof.
  intros Henc.
  destruct (fallback_chunking_partition self content filepath)
    as (segs & <- & -> & Hne & _).
  intros [i Hc]%list_elem_of_lookup.
  destruct (partition_chunk_range _ _ _ Hc)
    as (seg & Hseg & Hblock & Hs & He & ->).
  rewrite Forall_lookup in Hne. pose proof (Hne _ _ Hseg) as Hseg'.
  destruct (join_nl_length_bounds seg Henc Hseg') as [Hlo Hhi].
  rewrite Hblock at 1 2. simpl text.
  rewrite heuristic_tokens by done.
  replace (end_line c - start_line c) with (len seg - 1) by lia.
  Z.div_mod_to_equations. lia.
Qed.

End ChunkEstimate.

(** ** The overlap stage: what it keeps and what it adds *)

Section OverlapShape.

Variable self : TreeSitterChunker.
Import Py PyFacts.

Lemma overlap_prev_shape lines S i c :
  ∃ pre,
    text (overlap_prev self lines S i c) = pre +:+ text c
    ∧ type_ (overlap_prev self lines S i c) = type_ c
    ∧ name (overlap_prev self lines S i c) = name c
    ∧ capture_name (overlap_prev self lines S i c) = capture_name c
    ∧ parser_fallback (overlap_prev self lines S i c) = parser_fallback c
    ∧ end_line (overlap_prev self lines S i c) = end_line c
    ∧ (i = 0%nat →
       start_line (overlap_prev self lines S i c) = start_line c
       ∧ pre = "").
Proof.
  unfold overlap_prev. destruct i as [|i].
  - exists "". by split_and!.
  - simpl. destruct (S !! (i - 0)%nat) as [p|].
    + eexists. simpl. rewrite str_app_assoc. by split_and!.
    + exists "". by split_and!.
Qed.

Lemma overlap_next_shape lines S i c :
  ∃ post,
    text (overlap_next self lines S i c) = text c +:+ post
    ∧ type_ (overlap_next self lines S i c) = type_ c
    ∧ name (overlap_next self lines S i c) = name c
    ∧ capture_name (overlap_next self lines S i c) = capture_name c
    ∧ parser_fallback (overlap_next self lines S i c) = parser_fallback c
    ∧ start_line (overlap_next self lines S i c) = start_line c
    ∧ (Datatypes.S i = length S →
       end_line (overlap_next self lines S i c) = end_line c ∧ post = "").
Proof.
  unfold overlap_next.
  destruct (Z.ltb_spec (Z.of_nat i) (len S - 1)) as [Hlt|Hge].
  - destruct (S !! (i + 1)%nat) as [n|].
    + eexists. simpl. split_and!; try done. unfold len in Hlt. lia.
    + exists "". rewrite str_app_nil_r. split_and!; try done.
  - exists "". rewrite str_app_nil_r. by split_and!.
Qed.

(** X8. [_add_overlap] only adds context: the chunk at position [i] of
    the result has the type, name, capture name and flag of the chunk at
    position [i] of its argument, and its text is that chunk's text with
    something before and something after. Nothing is put before the first
    chunk, whose [start_line] stays, and nothing after the last one,
    whose [end_line] stays. *)
Theorem add_overlap_keeps_chunks (chunks : list Chunk) (content : string)
  (i : nat) (c : Chunk) :
  chunks !! i = Some c →
  ∃ out pre post,
    _add_overlap self chunks content !! i = Some out
    ∧ text out = pre +:+ text c +:+ post
    ∧ type_ out = type_ c
    ∧ name out = name c
    ∧ capture_name out = capture_name c
    ∧ parser_fallback out = parser_fallback c
    ∧ (i = 0%nat → start_line out = start_line c ∧ pre = "")
    ∧ (S i = length chunks → end_line out = end_line c ∧ post = "").
Proof.
  intros Hi.
  destruct (Z.leb_spec (len chunks) 1) as [Hshort|Hlong].
  - exists c, "", "". unfold _add_overlap.
    destruct (Z.leb_spec (len chunks) 1) as [_|?]; [|lia].
    rewrite str_app_nil_r. by split_and!.
  - rewrite (add_overlap_lookup self chunks content i c Hlong Hi).
    set (lines := split_nl content).
    set (S' := _add_overlap self chunks content).
    destruct (overlap_prev_shape lines S' i c)
      as (pre & Ht1 & Hty1 & Hn1 & Hc1 & Hp1 & He1 & Hfirst).
    destruct (overlap_next_shape lines chunks i
                (overlap_prev self lines S' i c))
      as (post & Ht2 & Hty2 & Hn2 & Hc2 & Hp2 & Hs2 & Hlast).
    eexists _, pre, post. split; [done|].
    rewrite Ht2, Ht1, Hty2, Hty1, Hn2, Hn1, Hc2, Hc1, Hp2, Hp1, Hs2.
    split_and!; try done.
    + by rewrite str_app_assoc.
    + intros Hl. destruct (Hlast Hl) as [-> ->]. by rewrite He1.
Qed.

Lemma slice_empty {A} (l : list A) a : slice l a a = [].
Proof. unfold slice. by rewrite Z.sub_diag. Qed.

(** X9. On adjacent chunks the slice put before a chunk is the slice put
    after its predecessor. When chunk [S i] starts on the line after
    chunk [i] and the overlap window stays within the file, the lines of
    the window, which begin with the first line of chunk [S i], are
    appended to chunk [i] and the same lines are prepended to chunk
    [S i], whose [start_line] is not moved back. *)
Theorem add_overlap_repeats_window (chunks : list Chunk) (content : string)
  (i : nat) (p c : Chunk) :
  1 < len chunks →
  chunks !! i = Some p →
  chunks !! S i = Some c →
  start_line c = end_line p + 1 →
  0 ≤ end_line p →
  0 ≤ overlap_lines_count self →
  end_line p + overlap_lines_count self ≤ len (split_nl content) →
  ∃ p' c' pre post,
    _add_overlap self chunks content !! i = Some p'
    ∧ _add_overlap self chunks content !! S i = Some c'
    ∧ text p'
      = pre +:+ text p +:+ NL +:+
        join_nl (slice (split_nl content) (end_line p)
                   (end_line p + overlap_lines_count self))
    ∧ text c'
      = join_nl (slice (split_nl content) (end_line p)
                   (end_line p + overlap_lines_count self))
        +:+ NL +:+ text c +:+ post
    ∧ end_line p' = end_line p + overlap_lines_count self
    ∧ start_line c' = start_line c.
Proof.
  intros Hlong Hp Hc Hadj Hend Hk Hwin.
  set (lines := split_nl content) in *.
  set (k := overlap_lines_count self) in *.
  set (S' := _add_overlap self chunks content).
  pose proof (add_overlap_lookup self chunks content i p Hlong Hp) as Hp'.
  pose proof (add_overlap_lookup self chunks content (S i) c Hlong Hc) as Hc'.
  fold lines in Hp', Hc'. fold S' in Hp', Hc'.
  destruct (overlap_prev_shape lines S' i p)
    as (pre & Ht1 & _ & _ & _ & _ & He1 & _).
  destruct (overlap_next_shape lines chunks (S i)
              (overlap_prev self lines S' (S i) c))
    as (post & Ht2 & _ & _ & _ & _ & Hs2 & _).
  assert (Z.min (len lines) (start_line c - 1 + k) = end_line p + k) as Hmin
    by lia.
  assert (overlap_next self lines chunks i (overlap_prev self lines S' i p)
          = {| type_ := type_ (overlap_prev self lines S' i p);
               name := name (overlap_prev self lines S' i p);
               start_line := start_line (overlap_prev self lines S' i p);
               end_line := end_line p + k;
               text := text (overlap_prev self lines S' i p) +:+ NL +:+
                       join_nl (slice lines (end_line p) (end_line p + k));
               capture_name := capture_name (overlap_prev self lines S' i p);
               parser_fallback :=
                 parser_fallback (overlap_prev self lines S' i p) |}) as Hnext.
  { unfold overlap_next.
    pose proof (lookup_lt_Some _ _ _ Hc) as Hlt.
    destruct (Z.ltb_spec (Z.of_nat i) (len chunks - 1)) as [_|?];
      [|unfold len in *; lia].
    replace (i + 1)%nat with (S i) by lia. rewrite Hc.
    fold k. rewrite Hmin. by replace (start_line c - 1) with (end_line p) by lia. }
  rewrite Hnext in Hp'.
  assert (overlap_prev self lines S' (S i) c
          = {| type_ := type_ c; name := name c;
               start_line := end_line p + 1;
               end_line := end_line c;
               text := join_nl (slice lines (end_line p) (end_line p + k))
                       +:+ NL +:+ text c;
               capture_name := capture_name c;
               parser_fallback := parser_fallback c |}) as Hprev.
  { unfold overlap_prev. simpl. rewrite Nat.sub_0_r, Hp'. simpl. fold k.
    by replace (Z.max 0 (end_line p + k - k)) with (end_line p) by lia. }
  eexists _, _, pre, post. split; [exact Hp'|]. split; [exact Hc'|].
  simpl. rewrite Ht2, Hs2, Hprev, Ht1. simpl.
  split_and!; try done; by rewrite ?str_app_assoc.
Qed.

End OverlapShape.

Section OverlapZero.

Variable self : TreeSitterChunker.
Import Py PyFacts.

Lemma tiling_bounds ls cs (i : nat) c :
  tiling 1 ls cs → cs !! i = Some c →
  1 ≤ start_line c ∧ start_line c ≤ end_line c ∧ end_line c ≤ len ls.
Proof.
  intros Ht Hc.
  destruct (tiling_range 1 ls cs Ht c (list_elem_of_lookup_2 _ _ _ Hc))
    as (pre & seg & post & -> & Hseg & Hs & He & _).
  pose proof (len_nonneg pre). pose proof (len_pos seg Hseg).
  pose proof (len_nonneg post). rewrite !len_app. lia.
Qed.

(** X10. An overlap of less than four tokens is no line of overlap, yet
    [_add_overlap] still changes the texts. On chunks that tile the lines
    of the content (as the fallback path delivers them) and for
    [0 <= overlap_tokens < 4], every chunk keeps its line range, and its
    text gets a newline in front unless it is the first chunk and a
    newline behind unless it is the last. *)
Theorem add_overlap_zero_window (chunks : list Chunk) (content : string)
  (i : nat) (c : Chunk) :
  0 ≤ overlap_tokens self < 4 →
  1 < len chunks →
  tiling 1 (split_nl content) chunks →
  chunks !! i = Some c →
  _add_overlap self chunks content !! i
  = Some {| type_ := type_ c; name := name c;
            start_line := start_line c; end_line := end_line c;
            text := (if (0 <? i)%nat then NL else "") +:+ text c +:+
                    (if (S i <? length chunks)%nat then NL else "");
            capture_name := capture_name c;
            parser_fallback := parser_fallback c |}.
Proof.
  intros Hov Hlong Ht Hc.
  set (lines := split_nl content) in *.
  assert (overlap_lines_count self = 0) as Hk
    by (unfold overlap_lines_count; Z.div_mod_to_equations; lia).
  rewrite (add_overlap_lookup self chunks content i c Hlong Hc).
  fold lines. set (S' := _add_overlap self chunks content).
  destruct (tiling_bounds _ _ _ _ Ht Hc) as (Hs1 & Hse & Hel).
  assert (overlap_prev self lines S' i c
          = {| type_ := type_ c; name := name c;
               start_line := start_line c; end_line := end_line c;
               text := (if (0 <? i)%nat then NL else "") +:+ text c;
               capture_name := capture_name c;
               parser_fallback := parser_fallback c |}) as ->.
  { destruct i as [|j]; [by destruct c|].
    pose proof (lookup_lt_Some _ _ _ Hc) as Hlt.
    destruct (lookup_lt_is_Some_2 chunks j ltac:(lia)) as [p Hp].
    destruct (add_overlap_prev_end self chunks content j p c Hlong Hp Hc)
      as (p' & Hp' & Hend).
    fold lines in Hend. fold S' in Hp'. rewrite Hk in Hend.
    unfold overlap_prev. simpl. rewrite Nat.sub_0_r, Hp', Hk, Hend.
    replace (Z.min (len lines) (start_line c - 1 + 0))
      with (start_line c - 1) by lia.
    replace (Z.max 0 (start_line c - 1 - 0)) with (start_line c - 1) by lia.
    rewrite slice_empty. simpl. f_equal. f_equal. lia. }
  unfold overlap_next. simpl.
  destruct (Z.ltb_spec (Z.of_nat i) (len chunks - 1)) as [Hlt|Hge].
  - assert ((S i <? length chunks)%nat = true) as ->
      by (apply Nat.ltb_lt; unfold len in Hlt; lia).
    destruct (lookup_lt_is_Some_2 chunks (S i)
                ltac:(unfold len in Hlt; lia)) as [d Hd].
    replace (i + 1)%nat with (S i) by lia. rewrite Hd, Hk.
    pose proof (tiling_adjacent _ _ _ Ht i c d Hc Hd) as Hadj.
    replace (start_line d - 1) with (end_line c) by lia.
    replace (Z.min (len lines) (end_line c + 0)) with (end_line c) by lia.
    rewrite slice_empty. simpl. do 2 f_equal.
    by rewrite !str_app_assoc, str_app_nil_r.
  - assert ((S i <? length chunks)%nat = false) as ->
      by (apply Nat.ltb_ge; unfold len in Hge; lia).
    do 2 f_equal. by rewrite str_app_nil_r.
Qed.

End OverlapZero.

(** ** The counters of a run *)

Section Accounting.

Variable self : TreeSitterChunker.
Variable sha1_hexdigest str_title suffix_lower : string → string.
Variable chunker_chunk_file : string → string → list Chunk.
Variable read_file : string → option (string * string).
Import Py PyFacts.

Lemma write_chunks_loop_run filepath chunks language last_modified : ∀ w,
  write_chunks_loop self sha1_hexdigest str_title filepath chunks language
    last_modified w
  = (Returned (),
     {| stats := add_total_chunks (len chunks) (stats w);
        chunks_jsonl :=
          chunks_jsonl w ++
          map (λ c, chunk_data self sha1_hexdigest str_title filepath c
                      language last_modified) chunks |}).
Proof.
  induction chunks as [|chunk rest IH]; intros [st out].
  - simpl. unfold mret, Run_ret. do 2 f_equal.
    + destruct st. unfold add_total_chunks, len. simpl. f_equal. lia.
    + by rewrite app_nil_r.
  - simpl. unfold mbind, Run_bind, update_stats, write_line. simpl.
    rewrite IH. simpl. do 2 f_equal.
    + destruct st. unfold add_total_chunks, incr_total_chunks, len. simpl.
      f_equal. lia.
    + by rewrite <- app_assoc.
Qed.

(** The state [process_file] leaves, case by case. *)
Lemma process_file_run output_writable filepath relative_path w :
  process_file self sha1_hexdigest str_title suffix_lower chunker_chunk_file
    read_file output_writable filepath relative_path w
  = (Returned (),
     match read_file filepath with
     | None =>
         {| stats := incr_failed_files (incr_total_files (stats w));
            chunks_jsonl := chunks_jsonl w |}
     | Some (content, last_modified) =>
         let chunks := chunker_chunk_file filepath content in
         let language := _get_language suffix_lower filepath in
         if truthy chunks then
           if output_writable then
             {| stats :=
                  add_total_chunks (len chunks)
                    (add_language_chunks language (len chunks)
                       (incr_parsed_files (incr_total_files (stats w))));
                chunks_jsonl :=
                  chunks_jsonl w ++
                  map (λ c, chunk_data self sha1_hexdigest str_title
                              relative_path c language last_modified)
                      chunks |}
           else
             {| stats :=
                  incr_failed_files
                    (add_language_chunks language (len chunks)
                       (incr_parsed_files (incr_total_files (stats w))));
                chunks_jsonl := chunks_jsonl w |}
         else
           {| stats := incr_failed_files (incr_total_files (stats w));
              chunks_jsonl := chunks_jsonl w |}
     end).
Proof.
  unfold process_file, mbind, Run_bind, try_except, update_stats.
  destruct (read_file filepath) as [[content last_modified]|]; [|done].
  cbv zeta. destruct (truthy _); [|done].
  unfold _write_chunks. destruct output_writable; [|done].
  simpl. by rewrite write_chunks_loop_run.
Qed.

Lemma chunk_data_consistent filepath c language last_modified :
  record_consistent self sha1_hexdigest str_title
    (chunk_data self sha1_hexdigest str_title filepath c language
       last_modified).
Proof. by repeat split. Qed.

Lemma language_sum_insert (m : gmap string Z) k v :
  language_sum (<[k:=v]> m) = language_sum m - default 0 (m !! k) + v.
Proof.
  unfold language_sum.
  destruct (m !! k) as [old|] eqn:Hk; simpl.
  - rewrite <- (insert_delete_eq m).
    rewrite map_fold_insert_L; [|intros; lia|apply lookup_delete_eq].
    rewrite (map_fold_delete_L _ _ k old m); [lia|intros; lia|done].
  - rewrite map_fold_insert_L; [lia|intros; lia|done].
Qed.

Lemma manifest_total_tokens_scale s :
  manifest_total_tokens s = 1000 * language_sum (chunks_by_language s).
Proof.
  unfold manifest_total_tokens, language_sum.
  induction (chunks_by_language s) as [|k v m Hk IH] using map_ind.
  - by rewrite !map_fold_empty.
  - rewrite !map_fold_insert_L; try done; try (intros; lia).
Qed.

(** The counters after one file, when the output can be written. *)
Lemma process_file_counters filepath relative_path w :
  ∃ w' new,
    process_file self sha1_hexdigest str_title suffix_lower
      chunker_chunk_file read_file true filepath relative_path w
    = (Returned (), w')
    ∧ chunks_jsonl w' = chunks_jsonl w ++ new
    ∧ Forall (record_consistent self sha1_hexdigest str_title) new
    ∧ total_files (stats w') = total_files (stats w) + 1
    ∧ parsed_files (stats w') + failed_files (stats w')
      = parsed_files (stats w) + failed_files (stats w) + 1
    ∧ total_chunks (stats w') = total_chunks (stats w) + len new
    ∧ language_sum (chunks_by_language (stats w'))
      = language_sum (chunks_by_language (stats w)) + len new.
Proof.
  rewrite process_file_run.
  destruct (read_file filepath) as [[content last_modified]|].
  - cbv zeta. destruct (truthy _).
    + eexists _, _. split; [done|]. simpl. split; [done|].
      split.
      { apply Forall_forall. intros d [c [-> _]]%list_elem_of_fmap.
        apply chunk_data_consistent. }
      rewrite language_sum_insert. unfold len. rewrite length_map.
      split_and!; lia.
    + eexists _, []. split; [done|]. simpl. rewrite app_nil_r.
      change (len (@nil ChunkData)) with 0. split_and!; try done; lia.
  - eexists _, []. split; [done|]. simpl. rewrite app_nil_r.
    change (len (@nil ChunkData)) with 0. split_and!; try done; lia.
Qed.

(** The counters after a run, file by file. *)
Lemma process_files_counters (files : list (string * string))
  (w : World) :
  ∃ w' new,
    process_files self sha1_hexdigest str_title suffix_lower
      chunker_chunk_file read_file true files w
    = (Returned (), w')
    ∧ chunks_jsonl w' = chunks_jsonl w ++ new
    ∧ total_files (stats w') = total_files (stats w) + len files
    ∧ parsed_files (stats w') + failed_files (stats w')
      = parsed_files (stats w) + failed_files (stats w) + len files
    ∧ total_chunks (stats w') = total_chunks (stats w) + len new
    ∧ language_sum (chunks_by_language (stats w'))
      = language_sum (chunks_by_language (stats w)) + len new.
Proof.
  revert w. induction files as [|[filepath relative_path] rest IH]; intros w.
  - exists w, []. simpl. rewrite app_nil_r.
    change (len (@nil ChunkData)) with 0.
    change (len (@nil (string * string))) with 0.
    split_and!; try done; lia.
  - simpl. unfold mbind, Run_bind.
    destruct (process_file_counters filepath relative_path w)
      as (w1 & new1 & -> & Hout1 & _ & Ht1 & Hp1 & Hc1 & Hl1).
    destruct (IH w1) as (w' & new & -> & Hout & Ht & Hp & Hc & Hl).
    exists w', (new1 ++ new). split; [done|].
    rewrite Hout, Hout1, Ht, Ht1, Hp, Hp1, Hc, Hc1, Hl, Hl1, len_app.
    assert (len ((filepath, relative_path) :: rest) = 1 + len rest) as ->
      by (unfold len; simpl length; lia).
    split_and!; try lia. by rewrite app_assoc.
Qed.

(** X11. A run over any list of files, with an output that can be
    written, keeps the books: every file is counted once as seen and
    once as parsed or failed, [total_chunks] and the per-language counts
    grow by the number of records appended to [chunks.jsonl], and the
    records already there are not touched. *)
Theorem process_files_accounting (files : list (string * string))
  (w : World) :
  ∃ w' new,
    process_files self sha1_hexdigest str_title suffix_lower
      chunker_chunk_file read_file true files w
    = (Returned (), w')
    ∧ chunks_jsonl w' = chunks_jsonl w ++ new
    ∧ total_files (stats w') = total_files (stats w) + len files
    ∧ parsed_files (stats w') + failed_files (stats w')
      = parsed_files (stats w) + failed_files (stats w) + len files
    ∧ total_chunks (stats w') = total_chunks (stats w) + len new
    ∧ language_sum (chunks_by_language (stats w'))
      = language_sum (chunks_by_language (stats w)) + len new.
Proof. apply process_files_counters. Qed.

(** Every record a run appends to [chunks.jsonl] agrees with itself:
    its identifier is [create_chunk_id] of its own path, line numbers and
    text and is ["sha1:"] followed by its fingerprint, and its estimate,
    summary and imports are those of its own text. *)
Lemma process_files_records (output_writable : bool)
  (files : list (string * string)) (w : World) :
  ∃ w' new,
    process_files self sha1_hexdigest str_title suffix_lower
      chunker_chunk_file read_file output_writable files w
    = (Returned (), w')
    ∧ chunks_jsonl w' = chunks_jsonl w ++ new
    ∧ Forall (record_consistent self sha1_hexdigest str_title) new.
Proof.
  revert w. induction files as [|[filepath relative_path] rest IH]; intros w.
  - exists w, []. simpl. by rewrite app_nil_r.
  - simpl. unfold mbind, Run_bind. rewrite process_file_run.
    lazymatch goal with
    | |- context [process_files _ _ _ _ _ _ _ rest ?w1] =>
        destruct (IH w1) as (w' & new & -> & Hout & Hnew);
        assert (∃ new1, chunks_jsonl w1 = chunks_jsonl w ++ new1
                        ∧ Forall (record_consistent self sha1_hexdigest
                                    str_title) new1) as (new1 & Hout1 & Hnew1)
    end.
    { destruct (read_file filepath) as [[content last_modified]|];
        [cbv zeta; destruct (truthy _); [destruct output_writable|]|];
        simpl; try (exists []; by rewrite app_nil_r).
      eexists. split; [done|].
      apply Forall_forall. intros d [c [-> _]]%list_elem_of_fmap.
      apply chunk_data_consistent. }
    exists w', (new1 ++ new). split; [done|].
    rewrite Hout, Hout1, app_assoc. split; [done|].
    by apply Forall_app.
Qed.

(** X12. The average that [write_manifest] records is a constant. After
    a run that starts with empty counters and writes its output,
    [avg_chunk_tokens] is set to 1000 as soon as one chunk was written,
    whatever the chunks hold, and is left as it was otherwise: the total
    is taken to be 1000 tokens for every chunk counted. *)
Theorem write_manifest_avg_constant (files : list (string * string))
  (avg_chunk_tokens : Z) :
  ∃ w',
    process_files self sha1_hexdigest str_title suffix_lower
      chunker_chunk_file read_file true files Scenario.fresh
    = (Returned (), w')
    ∧ write_manifest_avg (stats w') avg_chunk_tokens
      = if 0 <? total_chunks (stats w') then 1000 else avg_chunk_tokens.
Proof.
  destruct (process_files_counters files Scenario.fresh)
    as (w' & new & Hrun & _ & _ & _ & Hc & Hl).
  exists w'. split; [done|]. unfold write_manifest_avg.
  destruct (Z.ltb_spec 0 (total_chunks (stats w'))) as [Hpos|_]; [|done].
  rewrite manifest_total_tokens_scale, Hl.
  change (language_sum (chunks_by_language (stats Scenario.fresh))) with 0.
  simpl in Hc. rewrite Hc in *.
  rewrite !Z.add_0_l in *. apply Z.div_mul. lia.
Qed.

(** X13. When [chunks.jsonl] cannot be opened, a file that was read and
    chunked is counted twice: as parsed before the write is tried and as
    failed when the write raises. Its chunks are added to the
    per-language counts although none is written, and [total_chunks]
    does not move. *)
Theorem process_file_unwritable (filepath relative_path : string)
  (content last_modified : string) (w : World) :
  read_file filepath = Some (content, last_modified) →
  chunker_chunk_file filepath content ≠ [] →
  ∃ w',
    process_file self sha1_hexdigest str_title suffix_lower
      chunker_chunk_file read_file false filepath relative_path w
    = (Returned (), w')
    ∧ parsed_files (stats w') = parsed_files (stats w) + 1
    ∧ failed_files (stats w') = failed_files (stats w) + 1
    ∧ total_files (stats w') = total_files (stats w) + 1
    ∧ total_chunks (stats w') = total_chunks (stats w)
    ∧ chunks_jsonl w' = chunks_jsonl w
    ∧ language_sum (chunks_by_language (stats w'))
      = language_sum (chunks_by_language (stats w))
        + len (chunker_chunk_file filepath content).
Proof.
  intros Hread Hne.
  rewrite process_file_run, Hread. cbv zeta.
  destruct (chunker_chunk_file filepath content) as [|c cs]; [done|].
  simpl truthy. cbv iota.
  eexists. split; [reflexivity|].
  simpl. rewrite language_sum_insert. split_and!; try done. lia.
Qed.

End Accounting.

(** ** Structural parsing *)

Section StructuralFacts.

Context {Parser Tree : Type}.
Variable env : Environment Parser Tree.
Import Py PyFacts.

Lemma extract_loop_spec found : ∀ nodes,
  extract_loop found nodes
  = if existsb breaks_extraction found then None
    else Some (nodes ++
               map capture_chunk
                 (filter (λ capture,
                            str_in (ts_type capture.1) comment_types = false)
                         found)).
Proof.
  induction found as [|[node capture_name] rest IH]; intros nodes.
  - simpl. by rewrite app_nil_r.
  - cbn [existsb extract_loop]. unfold breaks_extraction at 1. cbn [fst].
    destruct (str_in (ts_type node) comment_types) eqn:Hcomment.
    + rewrite IH. cbn [negb andb orb].
      rewrite filter_cons_False; [done|]. cbn [fst]. by rewrite Hcomment.
    + cbn [negb]. rewrite andb_true_l.
      rewrite filter_cons_True by done.
      destruct (ts_text node) eqn:Htext; [| |done];
        rewrite IH; simpl orb; destruct (existsb _ rest); try done;
        rewrite <- app_assoc; do 3 f_equal;
        unfold capture_chunk; simpl; by rewrite Htext.
Qed.

Lemma load_queries_lookup language :
  language ∉ ["python"; "javascript"; "java"] →
  _load_queries Parser Tree env !! language = None.
Proof.
  intros Hnot. unfold _load_queries, query_files. simpl.
  assert (language ≠ "python" ∧ language ≠ "javascript" ∧ language ≠ "java")
    as (Hp & Hj & Hv).
  { split_and!; intros ->; apply Hnot; set_solver. }
  destruct (read_query env "python.scm") as [[?|]|];
    destruct (read_query env "javascript.scm") as [[?|]|];
    destruct (read_query env "java.scm") as [[?|]|];
    by rewrite ?lookup_insert_ne, ?lookup_empty.
Qed.

Lemma setup_parsers_empty :
  tree_sitter_available env = false
  ∨ ts_lang_so env = None ∨ ts_lang_so env = Some "" →
  _setup_parsers Parser Tree env = ∅.
Proof.
  unfold _setup_parsers, lang_so_path.
  intros [->|[->| ->]]; [done|by destruct (tree_sitter_available env)..].
Qed.

(** X14. Without the variable [TS_LANG_SO] (unset or empty), or without
    the tree-sitter module, no parser is ever loaded: [_setup_parsers]
    leaves the table empty whatever grammars are installed, no file is
    parsed, and [chunk_file] is the line-based fallback for every file. *)
Theorem no_language_library_all_fallback (max min overlap : Z)
  (estimator : TokenEstimator) (suffix_lower : string → string)
  (filepath content : string) :
  tree_sitter_available env = false
  ∨ ts_lang_so env = None ∨ ts_lang_so env = Some "" →
  _setup_parsers Parser Tree env = ∅
  ∧ chunk_file (chunker_in Parser Tree env max min overlap estimator)
      suffix_lower filepath content
    = _add_overlap (chunker_in Parser Tree env max min overlap estimator)
        (_merge_small_chunks
           (chunker_in Parser Tree env max min overlap estimator)
           (_fallback_chunking
              (chunker_in Parser Tree env max min overlap estimator)
              content filepath))
        content.
Proof.
  intros Hno. pose proof (setup_parsers_empty Hno) as Hempty.
  split; [done|]. unfold chunk_file. simpl structural_nodes.
  unfold structural_nodes_of, _parse_with_tree_sitter.
  by rewrite Hempty, lookup_empty.
Qed.

(** X15. A TypeScript file is never parsed: [_load_queries] knows the
    queries of python, javascript and java only, so for every other
    language, [typescript] and [unknown] among them, there is no tree
    and [chunk_file] is the line-based fallback, whatever parsers and
    query files are installed. *)
Theorem no_query_all_fallback (max min overlap : Z)
  (estimator : TokenEstimator) (suffix_lower : string → string)
  (filepath content : string) :
  _get_language suffix_lower filepath ∉ ["python"; "javascript"; "java"] →
  chunk_file (chunker_in Parser Tree env max min overlap estimator)
    suffix_lower filepath content
  = _add_overlap (chunker_in Parser Tree env max min overlap estimator)
      (_merge_small_chunks
         (chunker_in Parser Tree env max min overlap estimator)
         (_fallback_chunking
            (chunker_in Parser Tree env max min overlap estimator)
            content filepath))
      content.
Proof.
  intros Hlang. unfold chunk_file. simpl structural_nodes.
  unfold structural_nodes_of, _parse_with_tree_sitter.
  rewrite (load_queries_lookup _ Hlang).
  by destruct (_setup_parsers Parser Tree env !! _).
Qed.

(** X16. The nodes of a tree are taken all or none: when the query runs,
    [_extract_nodes_with_query] returns one dictionary for every capture
    that is not a comment, in the order of the captures, with line
    numbers one above the rows and without the key [parser_fallback];
    but when the text of one such capture does not decode, it returns no
    node at all. *)
Theorem extract_nodes_all_or_none (tree : Tree) (language : string)
  (query_text : string) (found : list (TsNode * string)) :
  _load_queries Parser Tree env !! language = Some query_text →
  captures env tree query_text = Some found →
  _extract_nodes_with_query Parser Tree env tree language
  = if existsb breaks_extraction found then []
    else map capture_chunk
           (filter (λ capture,
                      str_in (ts_type capture.1) comment_types = false)
                   found).
Proof.
  intros Hq Hfound. unfold _extract_nodes_with_query.
  rewrite Hq, Hfound, extract_loop_spec.
  by destruct (existsb _ found).
Qed.

Lemma extract_nodes_no_comment tree language :
  Forall (λ c, str_in (type_ c) comment_types = false)
         (_extract_nodes_with_query Parser Tree env tree language).
Proof.
  unfold _extract_nodes_with_query.
  destruct (_load_queries Parser Tree env !! language); [|constructor].
  destruct (captures env tree _) as [found|]; [|constructor].
  rewrite extract_loop_spec.
  destruct (existsb _ found); [constructor|]. simpl.
  apply Forall_forall. intros c (capture & -> & Hin)%list_elem_of_fmap.
  by apply list_elem_of_filter in Hin as [Hin _].
Qed.

End StructuralFacts.

(** ** Types and flags through [chunk_file] *)

Section ChunkKinds.

Variable self : TreeSitterChunker.
Import Py PyFacts.

Lemma add_overlap_member chunks content out :
  out ∈ _add_overlap self chunks content →
  ∃ c, c ∈ chunks
       ∧ type_ out = type_ c
       ∧ capture_name out = capture_name c
       ∧ parser_fallback out = parser_fallback c.
Proof.
  intros [i Hout]%list_elem_of_lookup.
  pose proof (lookup_lt_Some _ _ _ Hout) as Hlt.
  rewrite add_overlap_length in Hlt.
  destruct (lookup_lt_is_Some_2 chunks i Hlt) as [c Hc].
  exists c. split; [by eapply list_elem_of_lookup_2|].
  destruct (Z.leb_spec (len chunks) 1) as [Hshort|Hlong].
  - unfold _add_overlap in Hout.
    destruct (Z.leb_spec (len chunks) 1) as [_|?]; [|lia].
    rewrite Hc in Hout. by injection Hout as <-.
  - rewrite (add_overlap_lookup self chunks content i c Hlong Hc) in Hout.
    injection Hout as <-.
    set (lines := split_nl content).
    set (S' := _add_overlap self chunks content).
    destruct (overlap_prev_shape self lines S' i c)
      as (pre & _ & Hty1 & _ & Hc1 & Hp1 & _).
    destruct (overlap_next_shape self lines chunks i
                (overlap_prev self lines S' i c))
      as (post & _ & Hty2 & _ & Hc2 & Hp2 & _).
    by rewrite Hty2, Hty1, Hc2, Hc1, Hp2, Hp1.
Qed.

Lemma merge_small_chunks_member chunks c :
  c ∈ _merge_small_chunks self chunks →
  c ∈ chunks ∨ type_ c = "merged".
Proof.
  intros Hc. rewrite merge_small_chunks_suffix in Hc.
  destruct (merge_suffix_origin self chunks c Hc)
    as [(i & Hi & _)|(i & a & b & _ & _ & -> & _)].
  - left. by eapply list_elem_of_lookup_2.
  - by right.
Qed.

Lemma fallback_chunk_kind content filepath c :
  c ∈ _fallback_chunking self content filepath →
  type_ c = "block" ∧ capture_name c = "fallback"
  ∧ parser_fallback c = Some true.
Proof.
  destruct (fallback_chunking_partition self content filepath)
    as (segs & _ & -> & _).
  intros [i Hc]%list_elem_of_lookup.
  by destruct (partition_chunk_range _ _ _ Hc) as (seg & _ & -> & _).
Qed.

(** X17. Every chunk [chunk_file] returns for a file without structural
    nodes carries the flag [parser_fallback] and has type [block] or
    [merged]: the flag set by the fallback survives merging and overlap,
    so every record written for such a file is flagged. *)
Theorem chunk_file_fallback_flagged (suffix_lower : string → string)
  (filepath content : string) (c : Chunk) :
  structural_nodes self (_get_language suffix_lower filepath) content = [] →
  c ∈ chunk_file self suffix_lower filepath content →
  parser_fallback c = Some true
  ∧ (type_ c = "block" ∨ type_ c = "merged").
Proof.
  intros Hnodes Hc. unfold chunk_file in Hc. rewrite Hnodes in Hc.
  simpl truthy in Hc. cbv iota in Hc.
  apply add_overlap_member in Hc as (m & Hm & -> & _ & ->).
  assert (Forall (λ x, parser_fallback x = Some true)
            (_fallback_chunking self content filepath)) as Hall.
  { apply Forall_forall. intros x Hx.
    by apply fallback_chunk_kind in Hx as (_ & _ & ?). }
  destruct (merge_small_chunks_fallback_flag self _ m Hall Hm)
    as [Hflag [Hin|[Hty _]]].
  - split; [done|]. left. by apply fallback_chunk_kind in Hin as (? & _).
  - split; [done|]. by right.
Qed.

End ChunkKinds.

(** X18. [chunk_file] never returns a comment: whatever the grammar
    captures, no chunk has the type [comment], [line_comment] or
    [block_comment]. Comment captures are dropped before the nodes are
    built, and the other stages only produce the types [block] and
    [merged] or keep a type. *)
Theorem chunk_file_no_comment {Parser Tree : Type}
  (env : Environment Parser Tree) (max min overlap : Z)
  (estimator : TokenEstimator) (suffix_lower : string → string)
  (filepath content : string) :
  Forall (λ c, str_in (type_ c) comment_types = false)
    (chunk_file (chunker_in Parser Tree env max min overlap estimator)
       suffix_lower filepath content).
Proof.
  set (self := chunker_in Parser Tree env max min overlap estimator).
  apply Forall_forall. intros c Hc. unfold chunk_file in Hc.
  apply add_overlap_member in Hc as (m & Hm & -> & _).
  apply merge_small_chunks_member in Hm as [Hm| ->]; [|done].
  destruct (truthy _) eqn:Hnodes.
  - simpl structural_nodes in Hm. unfold structural_nodes_of in Hm.
    destruct (_parse_with_tree_sitter _ _ _ _ _) as [tree|];
      [|by apply elem_of_nil in Hm].
    pose proof (extract_nodes_no_comment env tree
                  (_get_language suffix_lower filepath)) as Hall.
    rewrite Forall_forall in Hall. by apply Hall.
  - by apply fallback_chunk_kind in Hm as (-> & _).
Qed.

(** ** Imports and summaries *)

Section Metadata.

Import Py PyFacts.

Lemma lstrip_idemp s : lstrip (lstrip s) = lstrip s.
Proof.
  induction s as [|c s IH]; [done|]. simpl.
  destruct (isspace c) eqn:Hc; [done|]. simpl. by rewrite Hc.
Qed.

Lemma rstrip_idemp s : rstrip (rstrip s) = rstrip s.
Proof.
  induction s as [|c s IH]; [done|]. simpl.
  destruct (rstrip s) as [|c' r] eqn:Hr.
  - destruct (isspace c) eqn:Hc; [done|]. simpl. by rewrite Hc.
  - simpl in *. by rewrite IH.
Qed.

(** Stripping twice is stripping once. *)
Lemma strip_idemp s : strip (strip s) = strip s.
Proof.
  unfold strip. rewrite (rstrip_lstrip_comm (rstrip (lstrip s))).
  rewrite rstrip_idemp, <- rstrip_lstrip_comm. by rewrite lstrip_idemp.
Qed.

(** X19. [extract_imports] returns, in the order of the text, exactly
    the stripped lines that begin with an import prefix of the language,
    so a returned line has no white space at either end; for a language
    other than python, javascript, typescript and java it returns
    nothing, and typescript is treated as javascript. *)
Theorem extract_imports_lines (text language : string) :
  extract_imports text language
    `sublist_of` map strip (split_nl text)
  ∧ (∀ line,
       line ∈ extract_imports text language
       ↔ line ∈ map strip (split_nl text)
         ∧ import_line language line = true)
  ∧ Forall (λ line, strip line = line) (extract_imports text language)
  ∧ (language ∉ ["python"; "javascript"; "typescript"; "java"] →
     extract_imports text language = [])
  ∧ extract_imports text "typescript" = extract_imports text "javascript".
Proof.
  unfold extract_imports. split_and!.
  - apply sublist_filter.
  - intros line. rewrite list_elem_of_filter. tauto.
  - apply Forall_forall. intros line [_ Hin]%list_elem_of_filter.
    apply list_elem_of_fmap in Hin as (l & -> & _). apply strip_idemp.
  - intros Hnot.
    assert (∀ line, import_line language line = false) as Hnone.
    { intros line. unfold import_line.
      destruct (String.eqb_spec language "python") as [->|_];
        [exfalso; apply Hnot; set_solver|].
      rewrite !str_in_eq. simpl str_in. rewrite orb_false_r.
      destruct (String.eqb_spec language "javascript") as [->|_];
        [exfalso; apply Hnot; set_solver|].
      destruct (String.eqb_spec language "typescript") as [->|_];
        [exfalso; apply Hnot; set_solver|].
      destruct (String.eqb_spec language "java") as [->|_];
        [exfalso; apply Hnot; set_solver|done]. }
    induction (map strip (split_nl text)) as [|l ls IH]; [done|].
    rewrite filter_cons_False; [done|]. by rewrite Hnone.
  - done.
Qed.

Lemma generate_summary_label str_title text node_type :
  generate_summary str_title text node_type
  = summary_label str_title node_type +:+ " " +:+
    (if str_in node_type ["import"; "import_statement"]
     then summary_first_line text
     else str_prefix 100 (summary_first_line text) +:+ "...").
Proof.
  unfold generate_summary, summary_label.
  rewrite !str_in_eq. simpl str_in. rewrite !orb_false_r.
  destruct (String.eqb_spec node_type "function") as [->|_]; [done|].
  destruct (String.eqb_spec node_type "method") as [->|_]; [done|].
  destruct (String.eqb_spec node_type "class") as [->|_]; [done|].
  simpl orb.
  destruct (String.eqb node_type "import"
            || String.eqb node_type "import_statement"); [done|].
  by rewrite !str_app_assoc.
Qed.

(** X20. A text of white space only has an empty summary line: the
    summary is the label followed by a space and, except for the import
    kinds, the three dots. So the chunk of an empty file is summarised as
    ["Block: ..."]. *)
Theorem generate_summary_blank (str_title : string → string)
  (text node_type : string) :
  strip text = "" →
  generate_summary str_title text node_type
  = summary_label str_title node_type +:+ " " +:+
    (if str_in node_type ["import"; "import_statement"] then "" else "...").
Proof.
  intros Hblank. rewrite generate_summary_label.
  unfold summary_first_line. rewrite Hblank. reflexivity.
Qed.

(** X21. Except for the import kinds a summary is bounded: it is at most
    104 characters longer than its label (a space, 100 characters of the
    line and three dots). For the import kinds it is as long as the
    line. *)
Theorem generate_summary_length (str_title : string → string)
  (text node_type : string) :
  if str_in node_type ["import"; "import_statement"]
  then String.length (generate_summary str_title text node_type)
       = (8 + String.length (first_nonblank_line text))%nat
  else (String.length (generate_summary str_title text node_type)
        ≤ String.length (summary_label str_title node_type) + 104)%nat.
Proof.
  rewrite generate_summary_label, summary_first_line_nonblank.
  unfold summary_label. rewrite !str_in_eq. simpl str_in.
  rewrite !orb_false_r.
  destruct (String.eqb_spec node_type "function") as [->|_];
    [|destruct (String.eqb_spec node_type "method") as [->|_];
      [|destruct (String.eqb_spec node_type "class") as [->|_]]];
    simpl orb; cbv iota;
    try (rewrite !str_length_app;
         pose proof (substring_0_length 100 (first_nonblank_line text));
         unfold str_prefix; simpl String.length; lia).
  destruct (String.eqb node_type "import"
            || String.eqb node_type "import_statement").
  - rewrite !str_length_app. simpl String.length. lia.
  - rewrite !str_length_app.
    pose proof (substring_0_length 100 (first_nonblank_line text)).
    unfold str_prefix. simpl String.length. lia.
Qed.

End Metadata.

(** ** Identity *)

Section Identity.

Import Py PyFacts.

Lemma to_int_not_nil z : Z.to_int z ≠ Decimal.Pos Decimal.Nil
                         ∧ Z.to_int z ≠ Decimal.Neg Decimal.Nil.
Proof.
  destruct z as [|p|p]; simpl; split; try discriminate;
    intros [= H]; by apply DecimalPos.Unsigned.to_uint_nonnil in H.
Qed.

(** [str] of an integer can be read back. *)
Lemma str_of_Z_inj a b : str_of_Z a = str_of_Z b → a = b.
Proof.
  unfold str_of_Z. intros H.
  apply (f_equal NilZero.int_of_string) in H.
  destruct (to_int_not_nil a) as [Ha1 Ha2].
  destruct (to_int_not_nil b) as [Hb1 Hb2].
  rewrite !NilZero.isi in H by done. injection H as H.
  apply (f_equal Z.of_int) in H. by rewrite !DecimalZ.of_to in H.
Qed.

Lemma uint_no_colon d :
  Posix.has_char ":" (NilEmpty.string_of_uint d) = false.
Proof. induction d; simpl; try done. Qed.

Lemma str_of_Z_no_colon z : Posix.has_char ":" (str_of_Z z) = false.
Proof.
  unfold str_of_Z, NilZero.string_of_int, NilZero.string_of_uint.
  destruct (Z.to_int z) as [d|d]; destruct d; try done;
    simpl; apply uint_no_colon.
Qed.

(** A string is cut at its first colon in one way only. *)
Lemma cut_at_colon a : ∀ a' b b',
  Posix.has_char ":" a = false → Posix.has_char ":" a' = false →
  a +:+ ":" +:+ b = a' +:+ ":" +:+ b' → a = a' ∧ b = b'.
Proof.
  induction a as [|c a IH]; intros [|c' a'] b b' Ha Ha' Heq.
  - change (String ":" b = String ":" b') in Heq. by injection Heq as ->.
  - change (String ":" b = String c' (a' +:+ ":" +:+ b')) in Heq.
    injection Heq as <- _. simpl in Ha'. discriminate.
  - change (String c (a +:+ ":" +:+ b) = String ":" b') in Heq.
    injection Heq as -> _. simpl in Ha. discriminate.
  - change (String c (a +:+ ":" +:+ b) = String c' (a' +:+ ":" +:+ b'))
      in Heq.
    injection Heq as -> Heq.
    simpl in Ha, Ha'. apply orb_false_iff in Ha as [_ Ha].
    apply orb_false_iff in Ha' as [_ Ha'].
    destruct (IH _ _ _ Ha Ha' Heq) as [-> ->]. done.
Qed.

(** X22. Identifiers tell chunks apart as far as the digest does: for
    paths without a colon, two chunks have the same identifier only if they
    have the same path, start line, end line and text, or the digest maps
    two different strings to the same value. *)
Theorem chunk_id_injective (sha1_hexdigest : string → string)
  (filepath filepath' : string) (start_line start_line' : Z)
  (end_line end_line' : Z) (text text' : string) :
  Posix.has_char ":" filepath = false →
  Posix.has_char ":" filepath' = false →
  create_chunk_id sha1_hexdigest filepath start_line end_line text
  = create_chunk_id sha1_hexdigest filepath' start_line' end_line' text' →
  (filepath = filepath' ∧ start_line = start_line'
   ∧ end_line = end_line' ∧ text = text')
  ∨ ∃ x y, x ≠ y ∧ sha1_hexdigest x = sha1_hexdigest y.
Proof.
  intros Hp Hp' Hid. unfold create_chunk_id in Hid.
  injection Hid as Hid.
  lazymatch type of Hid with
  | "" +:+ sha1_hexdigest ?x = "" +:+ sha1_hexdigest ?y =>
      change (sha1_hexdigest x = sha1_hexdigest y) in Hid;
      destruct (decide (x = y)) as [Heq|Hne]; [left|right; by exists x, y]
  end.
  apply cut_at_colon in Heq as [-> Heq]; [|done..].
  apply cut_at_colon in Heq as [Hs Heq]; [|apply str_of_Z_no_colon..].
  apply cut_at_colon in Heq as [He Heq]; [|apply str_of_Z_no_colon..].
  apply str_of_Z_inj in Hs, He. done.
Qed.

Lemma hex_word_length n : ∀ x, String.length (Sha1.hex_word n x) = n.
Proof.
  induction n as [|n IH]; intros x; [done|]. simpl.
  rewrite str_length_app, IH. simpl. lia.
Qed.

Lemma hexdigest_length content :
  String.length (Sha1.hexdigest content) = 40%nat.
Proof.
  unfold Sha1.hexdigest. by rewrite !str_length_app, !hex_word_length.
Qed.

(** X23. With SHA-1 as the digest every identifier is 45 characters,
    ["sha1:"] and 40 more, and every fingerprint is 40 characters, as the
    test suite checks on one input. *)
Theorem chunk_id_length (filepath : string) (start_line end_line : Z)
  (text : string) :
  String.length
    (create_chunk_id Sha1.hexdigest filepath start_line end_line text)
  = 45%nat
  ∧ String.prefix "sha1:"
      (create_chunk_id Sha1.hexdigest filepath start_line end_line text)
    = true
  ∧ String.length
      (create_code_fingerprint Sha1.hexdigest filepath start_line end_line
         text)
    = 40%nat.
Proof.
  unfold create_chunk_id, create_code_fingerprint.
  rewrite str_length_app, hexdigest_length. by split_and!.
Qed.

End Identity.

(** ** Number of chunks *)

(** X24. On the fallback path a file has at least one chunk and at most
    one chunk a line. *)
Theorem chunk_file_count (self : TreeSitterChunker)
  (suffix_lower : string → string) (filepath content : string) :
  structural_nodes self (_get_language suffix_lower filepath) content = [] →
  (1 ≤ length (chunk_file self suffix_lower filepath content)
   ≤ length (Py.split_nl content))%nat.
Proof.
  intros Hnodes.
  pose proof (chunk_file_not_nil self suffix_lower filepath content) as Hne.
  unfold chunk_file in *. rewrite Hnodes in *. simpl truthy in *.
  cbv iota in *. rewrite add_overlap_length in *.
  pose proof (merge_suffix_length self
                (_fallback_chunking self content filepath)) as [Hle _].
  rewrite <- merge_small_chunks_suffix in Hle.
  pose proof (fallback_chunking_count self content filepath) as [_ Hcount].
  split; [|lia].
  destruct (_add_overlap self _ content) eqn:Hout; [done|].
  apply (f_equal length) in Hout. rewrite add_overlap_length in Hout.
  rewrite Hout. simpl. lia.
Qed.

(** ** The further properties on concrete inputs *)

Section FurtherRuns.

Import Py Scenario Cases.

Example packer_chunks :
  _fallback_chunking packer four_lines "notes.txt" = two_blocks.
Proof. vm_compute. reflexivity. Qed.

(** With every grammar installed a python file is parsed, and the
    comment is left out. *)
Example equipped_python_nodes :
  chunk_file (chunker_in unit unit equipped 25000 0 1000 heuristic)
    Posix.suffix_lower "hello.py" four_lines
  = [{| type_ := "function_definition"; name := "function";
        start_line := 2; end_line := 3;
        text := "def f():" +:+ NL +:+ "    pass";
        capture_name := "function"; parser_fallback := None |}].
Proof. vm_compute. reflexivity. Qed.

(** A colon in the path lets two different chunks share an identifier. *)
Example chunk_id_colon_collision :
  create_chunk_id Sha1.hexdigest "a:1" 2 3 "t"
  = create_chunk_id Sha1.hexdigest "a" 1 2 "3:t".
Proof. vm_compute. reflexivity. Qed.

(** The merge of two chunks of one token each is a chunk of three. *)
Example merged_seven_tokens :
  tokens_of (chunker 2 50 1000) (text (merged_chunk seven_a seven_b)) = 3.
Proof. vm_compute. reflexivity. Qed.

(** X1, witness. *)
Lemma fallback_chunks_numbered_witness :
  name second_block = "block_" +:+ str_of_Z (Z.of_nat 1 + 1)
  ∧ type_ second_block = "block"
  ∧ capture_name second_block = "fallback"
  ∧ parser_fallback second_block = Some true.
Proof.
  apply (fallback_chunks_numbered packer four_lines "notes.txt" 1
           second_block).
  vm_compute. reflexivity.
Defined.

(** X2, witness. *)
Lemma fallback_chunk_within_ceiling_witness :
  sum_tokens packer
    (slice (split_nl four_lines) (start_line first_block - 1)
       (end_line first_block))
  ≤ max_tokens packer
  ∨ start_line first_block = end_line first_block.
Proof.
  apply (fallback_chunk_within_ceiling packer four_lines "notes.txt"
           first_block).
  vm_compute. apply list_elem_of_here.
Defined.

(** X3, witness. *)
Lemma fallback_chunk_closed_when_full_witness :
  ∃ next_line,
    split_nl four_lines !! Z.to_nat (end_line first_block) = Some next_line
    ∧ max_tokens packer
      < sum_tokens packer
          (slice (split_nl four_lines) (start_line first_block - 1)
             (end_line first_block))
        + tokens_of packer next_line.
Proof.
  apply (fallback_chunk_closed_when_full packer four_lines "notes.txt" 0
           first_block second_block); vm_compute; reflexivity.
Defined.

(** X4, witness. *)
Lemma small_file_is_one_chunk_witness :
  _fallback_chunking default_chunker four_lines "notes.txt"
  = [block 1 1 (len (split_nl four_lines)) four_lines]
  ∧ (structural_nodes default_chunker
       (_get_language Posix.suffix_lower "notes.txt") four_lines = [] →
     chunk_file default_chunker Posix.suffix_lower "notes.txt" four_lines
     = [block 1 1 (len (split_nl four_lines)) four_lines]).
Proof.
  apply (small_file_is_one_chunk default_chunker Posix.suffix_lower
           four_lines "notes.txt").
  vm_compute. discriminate.
Defined.

(** X6, witness. *)
Lemma merge_small_chunks_identity_witness :
  _merge_small_chunks (chunker 10000 0 1000) three_small = three_small.
Proof.
  apply (merge_small_chunks_identity (chunker 10000 0 1000) three_small).
  left. vm_compute. discriminate.
Defined.

(** X7, witness: the bound is reached. *)
Lemma merge_small_chunks_ceiling_witness :
  tokens_of (chunker 2 50 1000) (text (merged_chunk seven_a seven_b))
  ≤ max_tokens (chunker 2 50 1000) + 1.
Proof.
  apply (merge_small_chunks_ceiling (chunker 2 50 1000) [seven_a; seven_b]
           (merged_chunk seven_a seven_b)).
  - reflexivity.
  - repeat constructor; vm_compute; discriminate.
  - vm_compute. apply list_elem_of_here.
Defined.

(** X8, witness. *)
Lemma add_overlap_keeps_chunks_witness :
  ∃ out pre post,
    _add_overlap packer two_blocks four_lines !! 1%nat = Some out
    ∧ text out = pre +:+ text second_block +:+ post
    ∧ type_ out = type_ second_block
    ∧ name out = name second_block
    ∧ capture_name out = capture_name second_block
    ∧ parser_fallback out = parser_fallback second_block
    ∧ (1%nat = 0%nat →
       start_line out = start_line second_block ∧ pre = "")
    ∧ (2%nat = length two_blocks →
       end_line out = end_line second_block ∧ post = "").
Proof.
  apply (add_overlap_keeps_chunks packer two_blocks four_lines 1
           second_block).
  reflexivity.
Defined.

(** X9, witness. *)
Lemma add_overlap_repeats_window_witness :
  ∃ p' c' pre post,
    _add_overlap packer two_blocks four_lines !! 0%nat = Some p'
    ∧ _add_overlap packer two_blocks four_lines !! 1%nat = Some c'
    ∧ text p'
      = pre +:+ text first_block +:+ NL +:+
        join_nl (slice (split_nl four_lines) (end_line first_block)
                   (end_line first_block + overlap_lines_count packer))
    ∧ text c'
      = join_nl (slice (split_nl four_lines) (end_line first_block)
                   (end_line first_block + overlap_lines_count packer))
        +:+ NL +:+ text second_block +:+ post
    ∧ end_line p' = end_line first_block + overlap_lines_count packer
    ∧ start_line c' = start_line second_block.
Proof.
  apply (add_overlap_repeats_window packer two_blocks four_lines 0
           first_block second_block);
    try reflexivity; vm_compute; discriminate.
Defined.

(** X10, witness. *)
Lemma add_overlap_zero_window_witness :
  _add_overlap packer_no_overlap two_blocks four_lines !! 1%nat
  = Some {| type_ := type_ second_block; name := name second_block;
            start_line := start_line second_block;
            end_line := end_line second_block;
            text := (if (0 <? 1)%nat then NL else "") +:+
                    text second_block +:+
                    (if (2 <? length two_blocks)%nat then NL else "");
            capture_name := capture_name second_block;
            parser_fallback := parser_fallback second_block |}.
Proof.
  apply (add_overlap_zero_window packer_no_overlap two_blocks four_lines 1
           second_block).
  - split; vm_compute; [discriminate|reflexivity].
  - reflexivity.
  - exact (fallback_chunking_tiling packer_no_overlap four_lines
             "notes.txt").
  - reflexivity.
Defined.

(** X13, witness. *)
Lemma process_file_unwritable_witness :
  ∃ w',
    process_file default_chunker Sha1.hexdigest ascii_title
      Posix.suffix_lower (chunk_file default_chunker Posix.suffix_lower)
      empty_files false "/repo/empty.py" "empty.py" fresh
    = (Returned (), w')
    ∧ parsed_files (stats w') = parsed_files (stats fresh) + 1
    ∧ failed_files (stats w') = failed_files (stats fresh) + 1
    ∧ total_files (stats w') = total_files (stats fresh) + 1
    ∧ total_chunks (stats w') = total_chunks (stats fresh)
    ∧ chunks_jsonl w' = chunks_jsonl fresh
    ∧ language_sum (chunks_by_language (stats w'))
      = language_sum (chunks_by_language (stats fresh))
        + len (chunk_file default_chunker Posix.suffix_lower
                 "/repo/empty.py" "").
Proof.
  apply (process_file_unwritable default_chunker Sha1.hexdigest ascii_title
           Posix.suffix_lower (chunk_file default_chunker Posix.suffix_lower)
           empty_files "/repo/empty.py" "empty.py" ""
           "2024-01-01T00:00:00" fresh).
  - reflexivity.
  - vm_compute. discriminate.
Defined.

(** X14, witness. *)
Lemma no_language_library_all_fallback_witness :
  _setup_parsers unit unit bare = ∅
  ∧ chunk_file (chunker_in unit unit bare 2 0 4 heuristic)
      Posix.suffix_lower "hello.py" four_lines
    = _add_overlap (chunker_in unit unit bare 2 0 4 heuristic)
        (_merge_small_chunks (chunker_in unit unit bare 2 0 4 heuristic)
           (_fallback_chunking (chunker_in unit unit bare 2 0 4 heuristic)
              four_lines "hello.py"))
        four_lines.
Proof.
  apply (no_language_library_all_fallback bare 2 0 4 heuristic
           Posix.suffix_lower "hello.py" four_lines).
  left. reflexivity.
Defined.

(** X15, witness: a TypeScript file on a machine with every grammar. *)
Lemma no_query_all_fallback_witness :
  chunk_file (chunker_in unit unit equipped 2 0 4 heuristic)
    Posix.suffix_lower "app.ts" four_lines
  = _add_overlap (chunker_in unit unit equipped 2 0 4 heuristic)
      (_merge_small_chunks (chunker_in unit unit equipped 2 0 4 heuristic)
         (_fallback_chunking
            (chunker_in unit unit equipped 2 0 4 heuristic)
            four_lines "app.ts"))
      four_lines.
Proof.
  apply (no_query_all_fallback equipped 2 0 4 heuristic Posix.suffix_lower
           "app.ts" four_lines).
  vm_compute. intros H.
  repeat (apply elem_of_cons in H as [H|H]; [discriminate|]).
  by apply elem_of_nil in H.
Defined.

(** X16, witness. *)
Lemma extract_nodes_all_or_none_witness :
  _extract_nodes_with_query unit unit equipped tt "python"
  = if existsb breaks_extraction sample_captures then []
    else map capture_chunk
           (filter (λ capture,
                      str_in (ts_type capture.1) comment_types = false)
                   sample_captures).
Proof.
  apply (extract_nodes_all_or_none equipped tt "python"
           "(function_definition) @function" sample_captures);
    vm_compute; reflexivity.
Defined.

(** X17, witness. *)
Lemma chunk_file_fallback_flagged_witness :
  parser_fallback
    (block 1 1 3 ("aaaa" +:+ NL +:+ "bbbb" +:+ NL +:+ "cccc")) = Some true
  ∧ (type_ (block 1 1 3 ("aaaa" +:+ NL +:+ "bbbb" +:+ NL +:+ "cccc"))
     = "block"
     ∨ type_ (block 1 1 3 ("aaaa" +:+ NL +:+ "bbbb" +:+ NL +:+ "cccc"))
       = "merged").
Proof.
  apply (chunk_file_fallback_flagged packer Posix.suffix_lower "notes.txt"
           four_lines).
  - reflexivity.
  - vm_compute. apply list_elem_of_here.
Defined.

(** X20, witness: the summary of the chunk of an empty file. *)
Lemma generate_summary_blank_witness :
  generate_summary ascii_title "" "block"
  = summary_label ascii_title "block" +:+ " " +:+
    (if str_in "block" ["import"; "import_statement"] then "" else "...").
Proof.
  apply (generate_summary_blank ascii_title "" "block"). reflexivity.
Defined.

(** X22, witness: a chunk against itself, under SHA-1. *)
Lemma chunk_id_injective_witness :
  ("src/a.py" = "src/a.py" ∧ 1 = 1 ∧ 2 = 2
   ∧ "x = 1" +:+ NL +:+ "y = 2" = "x = 1" +:+ NL +:+ "y = 2")
  ∨ ∃ x y, x ≠ y ∧ Sha1.hexdigest x = Sha1.hexdigest y.
Proof.
  apply (chunk_id_injective Sha1.hexdigest "src/a.py" "src/a.py"
           1 1 2 2 ("x = 1" +:+ NL +:+ "y = 2")
           ("x = 1" +:+ NL +:+ "y = 2")); reflexivity.
Defined.

(** X25, witness. *)
Lemma fallback_chunk_estimate_witness :
  sum_tokens packer
    (slice (split_nl four_lines) (start_line first_block - 1)
       (end_line first_block))
  ≤ tokens_of packer (text first_block)
  ∧ tokens_of packer (text first_block)
    ≤ sum_tokens packer
        (slice (split_nl four_lines) (start_line first_block - 1)
           (end_line first_block))
      + (end_line first_block - start_line first_block).
Proof.
  apply (fallback_chunk_estimate packer four_lines "notes.txt" first_block).
  - reflexivity.
  - vm_compute. apply list_elem_of_here.
Defined.

(** X24, witness. *)
Lemma chunk_file_count_witness :
  (1 ≤ length (chunk_file packer Posix.suffix_lower "notes.txt" four_lines)
   ≤ length (split_nl four_lines))%nat.
Proof.
  apply (chunk_file_count packer Posix.suffix_lower "notes.txt" four_lines).
  reflexivity.
Defined.

End FurtherRuns.
